(** * Bucket-Versioning-Endpoints: the Storj adapter and its versioning façade

    A shallow embedding of [StorjService] (the S3-compatible client adapter),
    of [BucketVersioningService] and of the delete route of
    [BucketVersioningController], with the properties of the version and
    delete-marker reconciliation, of the configuration guard and of the
    error path of every adapter operation.

    Modelling conventions.
    - A JavaScript value that may be [undefined] is an [option].
    - A [Date] received from the backend is a valid date, modelled by its
      time value in milliseconds, a [Z]; the difference of two time values
      is exact in sign, which is all a comparator needs.
    - A JavaScript number that may be [NaN] is a [Num].
    - An [async] method is a computation over a [World]: the state of the
      backend, the commands handed to [s3Client.send] so far, and the lines
      written by the logger.  It resolves, rejects or stays pending.
    - The backend behind [s3Client.send] is any instance of [S3Client]. *)

From Stdlib Require Import List ZArith String Ascii Bool Lia.
From Stdlib Require Import Permutation Sorted DecimalString.
Import ListNotations.

Local Open Scope string_scope.
Local Open Scope Z_scope.

Set Implicit Arguments.

(* ================================================================== *)
(** * JavaScript values                                                 *)
(* ================================================================== *)

(** A thrown value: an [Error] object with its [name] and [message]. *)
Record JsError := mkJsError { name : string; message : string }.

(** [new Error(message)] *)
Definition newError (m : string) : JsError := mkJsError "Error" m.

(** The [TypeError] of a property read on [undefined]. *)
Definition undefinedRead (prop : string) : JsError :=
  mkJsError "TypeError"
    ("Cannot read properties of undefined (reading '" ++ prop ++ "')").

(** A number as a comparator may return it. *)
Inductive Num := NaN | num (z : Z).

(** [x - y] on numbers. *)
Definition num_sub (x y : Num) : Num :=
  match x, y with
  | num a, num b => num (a - b)
  | _, _ => NaN
  end.

(** [new Date(d).getTime()]: the time value of a date, [NaN] for
    [new Date(undefined)]. *)
Definition getTime (d : option Z) : Num :=
  match d with
  | Some t => num t
  | None => NaN
  end.

(** A template literal prints [undefined] for a missing value. *)
Definition js_str (v : option string) : string :=
  match v with
  | Some s => s
  | None => "undefined"
  end.

(** A template literal prints a length in decimal. *)
Definition js_nat (n : nat) : string := NilEmpty.string_of_uint (Nat.to_uint n).

(** [a || b] where [a] is an array or [undefined]: an array is truthy, also
    when it is empty. *)
Definition or_else {A : Type} (a : option A) (b : A) : A :=
  match a with
  | Some x => x
  | None => b
  end.

Definition Buffer := list Byte.byte.

(** ** [Array.prototype.sort]

    The comparator's result [v] orders [x] before [y] when [v < 0], after
    when [v > 0]; [NaN] counts as [+0] (SortCompare).  The sort is stable:
    of two elements that compare equal, the one that came first stays
    first.  For a comparator that is a consistent order this determines the
    result; it is computed here by stable insertion from the right. *)
Section JsSort.
Variable A : Type.
Variable comparefn : A -> A -> Num.

Definition SortCompare (x y : A) : Z :=
  match comparefn x y with
  | NaN => 0
  | num v => v
  end.

Fixpoint sort_insert (x : A) (l : list A) : list A :=
  match l with
  | [] => [x]
  | y :: l' =>
      if SortCompare x y <=? 0 then x :: y :: l' else y :: sort_insert x l'
  end.

Fixpoint js_sort (l : list A) : list A :=
  match l with
  | [] => []
  | x :: l' => sort_insert x (js_sort l')
  end.
End JsSort.

(* ================================================================== *)
(** * The S3 data model, as the adapter reads it                        *)
(* ================================================================== *)

(** An element of [Contents], [Versions] or [DeleteMarkers]: the adapter
    types it [any] and reads four properties of it. *)
Module Entry.
Record t := mk {
  Key : option string;
  VersionId : option string;
  LastModified : option Z;
  IsDeleteMarker : option bool
}.
End Entry.

(** What a readable stream emits, in order. *)
Inductive StreamEvent :=
| ev_data (chunk : Buffer)
| ev_error (e : JsError)
| ev_end.

Definition Stream := list StreamEvent.

(** The response of [s3Client.send]: the properties the adapter reads, each
    of which may be missing. *)
Module Output.
Record t := mk {
  Body : option Stream;
  Metadata : option (list (string * string));
  Contents : option (list Entry.t);
  Versions : option (list Entry.t);
  DeleteMarkers : option (list Entry.t);
  VersionId : option string;
  Status : option string
}.

Definition empty : t := mk None None None None None None None.
End Output.

(** The commands the adapter constructs, with the input properties it sets. *)
Inductive Command :=
| PutObjectCommand (Bucket : option string) (Key : string) (Body : Buffer)
| GetObjectCommand (Bucket : option string) (Key : string)
    (VersionId : option string)
| ListObjectsV2Command (Bucket : option string)
| ListObjectVersionsCommand (Bucket : option string) (Prefix : option string)
| DeleteObjectCommand (Bucket : option string) (Key : string)
    (VersionId : option string)
| GetBucketVersioningCommand (Bucket : option string).

(** A delete command: the only commands that remove a version or add a
    delete marker. *)
Definition is_delete (c : Command) : bool :=
  match c with
  | DeleteObjectCommand _ _ _ => true
  | _ => false
  end.

(** How an awaited promise settles. *)
Inductive Outcome (A : Type) :=
| Resolved (a : A)
| Rejected (e : JsError)
| Pending.

Arguments Resolved {A} a.
Arguments Rejected {A} e.
Arguments Pending {A}.

(** The S3 client: [send] answers a command from the state of the backend
    and leaves the backend in a new state. *)
Class S3Client (B : Type) := {
  send : Command -> B -> Outcome Output.t * B
}.

(** ** The logger *)
Inductive LogLevel := LOG | WARN | ERROR.

Inductive LogMessage :=
| text (s : string)
| object (o : Output.t).

Record LogEntry := mkLog {
  level : LogLevel;
  msg : LogMessage;
  cause : option JsError
}.

Definition is_error_level (l : LogEntry) : bool :=
  match level l with
  | ERROR => true
  | _ => false
  end.

(* ================================================================== *)
(** * Asynchronous computations                                          *)
(* ================================================================== *)

Section Async.
Context {B : Type} `{S3Client B}.

Record World := mkWorld {
  backend : B;
  requests : list Command;
  logged : list LogEntry
}.

Definition M (A : Type) := World -> Outcome A * World.

Definition ret {A} (a : A) : M A := fun w => (Resolved a, w).

Definition throw {A} (e : JsError) : M A := fun w => (Rejected e, w).

Definition bind {A C} (m : M A) (k : A -> M C) : M C :=
  fun w =>
    match m w with
    | (Resolved a, w') => k a w'
    | (Rejected e, w') => (Rejected e, w')
    | (Pending, w') => (Pending, w')
    end.

(** [try { m } catch (error) { h error }] *)
Definition try_catch {A} (m : M A) (h : JsError -> M A) : M A :=
  fun w =>
    match m w with
    | (Rejected e, w') => h e w'
    | r => r
    end.

(** [await p] for a promise that has settled without touching the world. *)
Definition await {A} (p : Outcome A) : M A := fun w => (p, w).

Definition write_log (l : LogEntry) : M unit :=
  fun w => (Resolved tt,
            mkWorld (backend w) (requests w) (logged w ++ [l])).

Definition logger_log (s : string) : M unit :=
  write_log (mkLog LOG (text s) None).

Definition logger_log_object (o : Output.t) : M unit :=
  write_log (mkLog LOG (object o) None).

Definition logger_warn (s : string) : M unit :=
  write_log (mkLog WARN (text s) None).

Definition logger_error (s : string) (e : JsError) : M unit :=
  write_log (mkLog ERROR (text s) (Some e)).

(** [await this.s3Client.send(command)] *)
Definition s3Client_send (command : Command) : M Output.t :=
  fun w =>
    let (r, b') := send command (backend w) in
    (r, mkWorld b' (requests w ++ [command]) (logged w)).
End Async.

Arguments World B : clear implicits.
Arguments M B A : clear implicits.

Declare Scope async_scope.
Delimit Scope async_scope with async.
Notation "x <- m ;; k" := (bind m (fun x => k))
  (at level 61, m at next level, right associativity) : async_scope.
Notation "m ;; k" := (bind m (fun _ => k))
  (at level 61, right associativity) : async_scope.
Notation "'try' m 'catch' h" := (try_catch m h)
  (at level 60, m at level 0, h at level 0) : async_scope.

Local Open Scope async_scope.

(* ================================================================== *)
(** * StorjService                                                       *)
(* ================================================================== *)

Module StorjService.

(** [ConfigService.get]: the value of a setting, [undefined] when it is
    not set. *)
Definition ConfigService := string -> option string.

(** The options handed to [new S3Client]. *)
Record S3ClientConfig := mkS3 {
  region : string;
  endpoint : string;
  accessKeyId : string;
  secretAccessKey : string;
  forcePathStyle : bool
}.

Record t := mk {
  s3Client : S3ClientConfig;
  bucket : option string
}.

(** [!v] for a setting: [undefined] and the empty string are falsy. *)
Definition not_ (v : option string) : bool :=
  match v with
  | None => true
  | Some s => String.eqb s ""
  end.

(** The constructor, with the field initialisers that run before its
    body: the lines it logs, and the instance or the error it throws. *)
Definition constructor (configService : ConfigService)
  : list LogEntry * (JsError + t) :=
  let bucket := configService "STORJ_BUCKET" in
  let accessKey := configService "STORJ_ACCESS_KEY" in
  let secretKey := configService "STORJ_SECRET_KEY" in
  let endpoint := configService "STORJ_ENDPOINT" in
  if not_ accessKey || not_ secretKey || not_ endpoint then
    ([mkLog ERROR (text "Storj configuration is incomplete")%string None],
     inl (newError "Storj configuration is incomplete"))
  else
    ([mkLog LOG (text "Initializing Storj S3 client")%string None],
     inr (mk (mkS3 "us-east-1" (or_else endpoint "")
                (or_else accessKey "") (or_else secretKey "") true)
             bucket)).

(** [streamToBuffer]: the promise resolves with the chunks received when
    the stream ends, rejects when the stream emits an error, and stays
    pending when the stream does neither.  A missing stream makes
    [stream.on] throw inside the executor, which rejects the promise. *)
Fixpoint drain (events : Stream) (chunks : list Buffer) : Outcome Buffer :=
  match events with
  | [] => Pending
  | ev_data chunk :: events' => drain events' (chunks ++ [chunk])
  | ev_error e :: _ => Rejected e
  | ev_end :: _ => Resolved (List.concat chunks)
  end.

Definition streamToBuffer (stream : option Stream) : Outcome Buffer :=
  match stream with
  | None => Rejected (undefinedRead "on")
  | Some events => drain events []
  end.

(** The comparator of [listObjectVersionsForKey]: a missing date counts
    as time zero. *)
Definition dateOrZero (e : Entry.t) : Num :=
  match Entry.LastModified e with
  | Some t => getTime (Some t)
  | None => num 0
  end.

Definition byDateOrZeroDesc (a b : Entry.t) : Num :=
  let dateA := dateOrZero a in
  let dateB := dateOrZero b in
  num_sub dateB dateA.

(** The comparator of [undeleteObject]: no default for a missing date. *)
Definition byDateDesc (a b : Entry.t) : Num :=
  num_sub (getTime (Entry.LastModified b)) (getTime (Entry.LastModified a)).

(** A flag in a condition: only [true] is truthy. *)
Definition truthy (flag : option bool) : bool :=
  match flag with
  | Some true => true
  | _ => false
  end.

(** [k === key] for a property [k] that may be missing. *)
Definition strictEq (k : option string) (key : string) : bool :=
  match k with
  | Some k' => String.eqb k' key
  | None => false
  end.

(** [v.IsDeleteMarker && v.Key === key] *)
Definition isMarkerOf (key : string) (v : Entry.t) : bool :=
  truthy (Entry.IsDeleteMarker v) && strictEq (Entry.Key v) key.

(** [[...(response.Versions || []), ...(response.DeleteMarkers || [])]] *)
Definition spread (response : Output.t) : list Entry.t :=
  or_else (Output.Versions response) []
    ++ or_else (Output.DeleteMarkers response) [].

Section Methods.
Context {B : Type} `{S3Client B}.
Variable this : t.

Definition uploadFile (file : Buffer) (key : string) : M B Output.t :=
  logger_log ("Uploading file to key: " ++ key) ;;
  try (
    let command := PutObjectCommand (bucket this) key file in
    result <- s3Client_send command ;;
    logger_log ("Successfully uploaded file to key: " ++ key) ;;
    ret result
  ) catch (fun error =>
    logger_error ("Failed to upload file to key: " ++ key) error ;;
    throw error).

Definition downloadFile (key : string) : M B Buffer :=
  logger_log ("Downloading file from key: " ++ key) ;;
  try (
    let command := GetObjectCommand (bucket this) key None in
    response <- s3Client_send command ;;
    buffer <- await (streamToBuffer (Output.Body response)) ;;
    logger_log ("Successfully downloaded file from key: " ++ key) ;;
    ret buffer
  ) catch (fun error =>
    logger_error ("Failed to download file from key: " ++ key) error ;;
    throw error).

Definition listObjects : M B (list Entry.t) :=
  logger_log "Listing objects in bucket" ;;
  try (
    let command := ListObjectsV2Command (bucket this) in
    response <- s3Client_send command ;;
    logger_log ("Found "
      ++ js_nat (match Output.Contents response with
                 | Some c => List.length c
                 | None => 0%nat
                 end)
      ++ " objects in bucket") ;;
    ret (or_else (Output.Contents response) [])
  ) catch (fun error =>
    logger_error "Failed to list objects in bucket" error ;;
    throw error).

Definition listObjectVersions : M B (list Entry.t) :=
  logger_log "Listing all object versions in bucket" ;;
  try (
    let command := ListObjectVersionsCommand (bucket this) None in
    response <- s3Client_send command ;;
    logger_log ("Found "
      ++ js_nat (match Output.Versions response with
                 | Some v => List.length v
                 | None => 0%nat
                 end)
      ++ " object versions in bucket") ;;
    ret (or_else (Output.Versions response) [])
  ) catch (fun error =>
    logger_error "Failed to list object versions in bucket" error ;;
    throw error).

Definition getObjectVersion (key versionId : string) : M B Buffer :=
  logger_log ("Downloading object version for key: " ++ key
              ++ ", versionId: " ++ versionId) ;;
  try (
    let command := GetObjectCommand (bucket this) key (Some versionId) in
    response <- s3Client_send command ;;
    buffer <- await (streamToBuffer (Output.Body response)) ;;
    logger_log ("Successfully downloaded object version for key: " ++ key
                ++ ", versionId: " ++ versionId) ;;
    ret buffer
  ) catch (fun error =>
    logger_error ("Failed to download object version for key: " ++ key
                  ++ ", versionId: " ++ versionId) error ;;
    throw error).

(** [versionId] is declared a string; [undeleteObject] passes the
    [VersionId] property of an entry, which may be missing. *)
Definition deleteObjectVersion (key : string) (versionId : option string)
  : M B Output.t :=
  logger_log ("Deleting object version for key: " ++ key
              ++ ", versionId: " ++ js_str versionId) ;;
  try (
    let command := DeleteObjectCommand (bucket this) key versionId in
    result <- s3Client_send command ;;
    logger_log ("Successfully deleted object version for key: " ++ key
                ++ ", versionId: " ++ js_str versionId) ;;
    ret result
  ) catch (fun error =>
    logger_error ("Failed to delete object version for key: " ++ key
                  ++ ", versionId: " ++ js_str versionId) error ;;
    throw error).

Definition isVersioningEnabled : M B bool :=
  logger_log "Checking if versioning is enabled for bucket" ;;
  try (
    let command := GetBucketVersioningCommand (bucket this) in
    response <- s3Client_send command ;;
    let isEnabled :=
      match Output.Status response with
      | Some s => String.eqb s "Enabled"
      | None => false
      end in
    logger_log ("Versioning is "
                ++ (if isEnabled then "enabled" else "disabled")
                ++ " for bucket") ;;
    ret isEnabled
  ) catch (fun error =>
    logger_error "Failed to check versioning status for bucket" error ;;
    throw error).

Definition listObjectVersionsForKey (key : string) : M B (list Entry.t) :=
  logger_log ("Listing object versions for key: " ++ key) ;;
  try (
    let command := ListObjectVersionsCommand (bucket this) (Some key) in
    response <- s3Client_send command ;;
    logger_log_object response ;;
    let allVersions := js_sort byDateOrZeroDesc (spread response) in
    logger_log ("Found " ++ js_nat (List.length allVersions)
                ++ " versions/markers for key: " ++ key) ;;
    ret allVersions
  ) catch (fun error =>
    logger_error ("Failed to list object versions for key: " ++ key)
      error ;;
    throw error).

Definition getCurrentObjectVersion (key : string)
  : M B (Buffer * option (list (string * string))) :=
  logger_log ("Retrieving current object version for key: " ++ key) ;;
  try (
    let command := GetObjectCommand (bucket this) key None in
    response <- s3Client_send command ;;
    buffer <- await (streamToBuffer (Output.Body response)) ;;
    logger_log ("Successfully retrieved current object version for key: "
                ++ key) ;;
    ret (buffer, Output.Metadata response)
  ) catch (fun error =>
    logger_error ("Failed to retrieve current object version for key: "
                  ++ key) error ;;
    throw error).

Definition getObjectVersionWithMetadata (key versionId : string)
  : M B (Buffer * option (list (string * string))) :=
  logger_log ("Retrieving object version with metadata for key: " ++ key
              ++ ", versionId: " ++ versionId) ;;
  try (
    let command := GetObjectCommand (bucket this) key (Some versionId) in
    response <- s3Client_send command ;;
    buffer <- await (streamToBuffer (Output.Body response)) ;;
    logger_log
      ("Successfully retrieved object version with metadata for key: "
       ++ key ++ ", versionId: " ++ versionId) ;;
    ret (buffer, Output.Metadata response)
  ) catch (fun error =>
    logger_error
      ("Failed to retrieve object version with metadata for key: "
       ++ key ++ ", versionId: " ++ versionId) error ;;
    throw error).

Definition deleteObjectWithMarker (key : string) : M B (option string) :=
  logger_log ("Deleting object with marker for key: " ++ key) ;;
  try (
    let command := DeleteObjectCommand (bucket this) key None in
    response <- s3Client_send command ;;
    logger_log ("Successfully deleted object with marker for key: " ++ key
                ++ ", marker versionId: "
                ++ js_str (Output.VersionId response)) ;;
    ret (Output.VersionId response)
  ) catch (fun error =>
    logger_error ("Failed to delete object with marker for key: " ++ key)
      error ;;
    throw error).

Definition undeleteObject (key : string) : M B Output.t :=
  logger_log ("Undeleting object for key: " ++ key) ;;
  try (
    versions <- listObjectVersionsForKey key ;;
    let deleteMarkers := filter (isMarkerOf key) versions in
    if (List.length deleteMarkers =? 0)%nat then
      logger_warn ("No delete marker found for key: " ++ key) ;;
      throw (newError "No delete marker found for the object")
    else
      match js_sort byDateDesc deleteMarkers with
      | [] => throw (undefinedRead "VersionId")
      | latestDeleteMarker :: _ =>
          logger_log ("Found " ++ js_nat (List.length deleteMarkers)
                      ++ " delete markers, removing latest one with versionId: "
                      ++ js_str (Entry.VersionId latestDeleteMarker)) ;;
          result <- deleteObjectVersion key
                      (Entry.VersionId latestDeleteMarker) ;;
          logger_log ("Successfully undeleted object for key: " ++ key) ;;
          ret result
      end
  ) catch (fun error =>
    logger_error ("Failed to undelete object for key: " ++ key) error ;;
    throw error).
End Methods.
End StorjService.

(* ================================================================== *)
(** * Objects with string properties, and the Express response           *)
(* ================================================================== *)

(** An object whose properties are strings (the [Metadata] of a response,
    the headers handed to [res.set]): its properties with their values.
    The order in which properties are enumerated is not used. *)
Definition JsObject := list (string * string).

(** [o[k] = v]: an existing property takes the new value, a new one is
    added. *)
Fixpoint obj_set (k v : string) (o : JsObject) : JsObject :=
  match o with
  | [] => [(k, v)]
  | (k', v') :: o' =>
      if String.eqb k' k then (k, v) :: o' else (k', v') :: obj_set k v o'
  end.

(** [o[k]] *)
Fixpoint obj_get (k : string) (o : JsObject) : option string :=
  match o with
  | [] => None
  | (k', v') :: o' => if String.eqb k' k then Some v' else obj_get k o'
  end.

(** [{ ...o, ...src }]: the properties of [src] are set one after the
    other; spreading [undefined] sets nothing. *)
Definition obj_spread (o : JsObject) (src : option JsObject) : JsObject :=
  fold_left (fun acc kv => obj_set (fst kv) (snd kv) acc) (or_else src []) o.

(** The double quote of a template literal. *)
Definition dquote : string := String (ascii_of_nat 34) EmptyString.

(** What a route does with the Express response: the calls it makes on
    [res], in order. *)
Inductive ResCall :=
| res_set (headers : JsObject)
| res_send (body : Buffer).

Definition Res := list ResCall.

(* ================================================================== *)
(** * BucketVersioningService and the JSON routes of the controller      *)
(* ================================================================== *)

(** Every method of [BucketVersioningService] returns the promise of the
    [StorjService] method of the same name. *)
Module BucketVersioningService.
Section Methods.
Context {B : Type} `{S3Client B}.
Variable storjService : StorjService.t.

Definition isVersioningEnabled : M B bool :=
  StorjService.isVersioningEnabled storjService.

Definition listObjectVersions : M B (list Entry.t) :=
  StorjService.listObjectVersions storjService.

Definition deleteObjectVersion (key : string) (versionId : option string)
  : M B Output.t :=
  StorjService.deleteObjectVersion storjService key versionId.

Definition deleteObjectWithMarker (key : string) : M B (option string) :=
  StorjService.deleteObjectWithMarker storjService key.

Definition undeleteObject (key : string) : M B Output.t :=
  StorjService.undeleteObject storjService key.

Definition listObjectVersionsForKey (key : string) : M B (list Entry.t) :=
  StorjService.listObjectVersionsForKey storjService key.

Definition uploadFile (file : Buffer) (key : string) : M B Output.t :=
  StorjService.uploadFile storjService file key.

Definition getObjectVersion (key versionId : string) : M B Buffer :=
  StorjService.getObjectVersion storjService key versionId.

Definition getCurrentObjectVersion (key : string)
  : M B (Buffer * option JsObject) :=
  StorjService.getCurrentObjectVersion storjService key.

Definition getObjectVersionWithMetadata (key versionId : string)
  : M B (Buffer * option JsObject) :=
  StorjService.getObjectVersionWithMetadata storjService key versionId.

Definition downloadFile (key : string) : M B Buffer :=
  StorjService.downloadFile storjService key.
End Methods.
End BucketVersioningService.

Module BucketVersioningController.
(** The body of [GET status]. *)
Record StatusBody := mkStatus { enabled : bool }.

(** The body of [DELETE delete/:key]. *)
Record DeleteBody := mkDelete { deleteVersionId : option string }.

Section Routes.
Context {B : Type} `{S3Client B}.
Variable storjService : StorjService.t.

Definition getVersioningStatus : M B StatusBody :=
  enabled <- BucketVersioningService.isVersioningEnabled storjService ;;
  ret (mkStatus enabled).

Definition listObjectVersions : M B (list Entry.t) :=
  BucketVersioningService.listObjectVersions storjService.

Definition deleteObjectWithMarker (key : string) : M B DeleteBody :=
  deleteVersionId <-
    BucketVersioningService.deleteObjectWithMarker storjService key ;;
  ret (mkDelete deleteVersionId).

Definition undeleteObject (key : string) : M B Output.t :=
  BucketVersioningService.undeleteObject storjService key.

Definition listObjectVersionsForKey (key : string) : M B (list Entry.t) :=
  BucketVersioningService.listObjectVersionsForKey storjService key.

Definition deleteObjectVersion (key : string) (versionId : option string)
  : M B Output.t :=
  BucketVersioningService.deleteObjectVersion storjService key versionId.

(** A route that writes to [res]: from the calls made on [res] so far and
    the world, how its promise settles, the calls made on [res] and the
    world. *)
Definition Route := Res -> World B -> Outcome unit * Res * World B.

(** [const x = await m; ... res ...]: the statements after the [await] run
    when the promise resolves, and only then. *)
Definition respond {A} (m : M B A) (k : A -> Res -> Res) : Route :=
  fun res w =>
    match m w with
    | (Resolved x, w') => (Resolved tt, k x res, w')
    | (Rejected e, w') => (Rejected e, res, w')
    | (Pending, w') => (Pending, res, w')
    end.

(** The two headers every download route sets. *)
Definition attachment (key : string) : JsObject :=
  obj_set "Content-Disposition"
    ("attachment; filename=" ++ dquote ++ key ++ dquote)
    (obj_set "Content-Type" "application/octet-stream" []).

Definition downloadObjectVersion (key versionId : string) : Route :=
  respond (BucketVersioningService.getObjectVersion storjService key versionId)
    (fun buffer res => (res ++ [res_set (attachment key); res_send buffer])%list).

Definition getCurrentObjectVersion (key : string) : Route :=
  respond (BucketVersioningService.getCurrentObjectVersion storjService key)
    (fun r res =>
       let buffer := fst r in
       let metadata := snd r in
       (res ++ [res_set (obj_spread (attachment key) metadata);
                res_send buffer])%list).

Definition downloadLatestObject (key : string) : Route :=
  respond (BucketVersioningService.downloadFile storjService key)
    (fun buffer res => (res ++ [res_set (attachment key); res_send buffer])%list).

Definition getObjectVersionWithMetadata (key versionId : string) : Route :=
  respond
    (BucketVersioningService.getObjectVersionWithMetadata storjService key
       versionId)
    (fun r res =>
       let buffer := fst r in
       let metadata := snd r in
       (res ++ [res_set (obj_spread (attachment key) metadata);
                res_send buffer])%list).
End Routes.
End BucketVersioningController.

(* ================================================================== *)
(** * The adapter operations, as one family                              *)
(* ================================================================== *)

(** The primitive operations of the adapter, each of which constructs one
    command and sends it; [undeleteObject] is built from two of them. *)
Inductive AdapterCall : Type -> Type :=
| call_uploadFile (file : Buffer) (key : string) : AdapterCall Output.t
| call_downloadFile (key : string) : AdapterCall Buffer
| call_listObjects : AdapterCall (list Entry.t)
| call_listObjectVersions : AdapterCall (list Entry.t)
| call_getObjectVersion (key versionId : string) : AdapterCall Buffer
| call_deleteObjectVersion (key : string) (versionId : option string)
  : AdapterCall Output.t
| call_isVersioningEnabled : AdapterCall bool
| call_listObjectVersionsForKey (key : string) : AdapterCall (list Entry.t)
| call_getCurrentObjectVersion (key : string)
  : AdapterCall (Buffer * option (list (string * string)))
| call_getObjectVersionWithMetadata (key versionId : string)
  : AdapterCall (Buffer * option (list (string * string)))
| call_deleteObjectWithMarker (key : string) : AdapterCall (option string).

(** The command an operation constructs. *)
Definition command_of (this : StorjService.t) {A} (c : AdapterCall A)
  : Command :=
  let bucket := StorjService.bucket this in
  match c with
  | call_uploadFile file key => PutObjectCommand bucket key file
  | call_downloadFile key => GetObjectCommand bucket key None
  | call_listObjects => ListObjectsV2Command bucket
  | call_listObjectVersions => ListObjectVersionsCommand bucket None
  | call_getObjectVersion key versionId =>
      GetObjectCommand bucket key (Some versionId)
  | call_deleteObjectVersion key versionId =>
      DeleteObjectCommand bucket key versionId
  | call_isVersioningEnabled => GetBucketVersioningCommand bucket
  | call_listObjectVersionsForKey key =>
      ListObjectVersionsCommand bucket (Some key)
  | call_getCurrentObjectVersion key => GetObjectCommand bucket key None
  | call_getObjectVersionWithMetadata key versionId =>
      GetObjectCommand bucket key (Some versionId)
  | call_deleteObjectWithMarker key => DeleteObjectCommand bucket key None
  end.

(** Whether the operation reads the body stream of the response. *)
Definition reads_body {A} (c : AdapterCall A) : bool :=
  match c with
  | call_downloadFile _ | call_getObjectVersion _ _
  | call_getCurrentObjectVersion _ | call_getObjectVersionWithMetadata _ _ =>
      true
  | _ => false
  end.

Section Perform.
Context {B : Type} `{S3Client B}.
Variable this : StorjService.t.

Definition perform {A} (c : AdapterCall A) : M B A :=
  match c in AdapterCall T return M B T with
  | call_uploadFile file key => StorjService.uploadFile this file key
  | call_downloadFile key => StorjService.downloadFile this key
  | call_listObjects => StorjService.listObjects this
  | call_listObjectVersions => StorjService.listObjectVersions this
  | call_getObjectVersion key versionId =>
      StorjService.getObjectVersion this key versionId
  | call_deleteObjectVersion key versionId =>
      StorjService.deleteObjectVersion this key versionId
  | call_isVersioningEnabled => StorjService.isVersioningEnabled this
  | call_listObjectVersionsForKey key =>
      StorjService.listObjectVersionsForKey this key
  | call_getCurrentObjectVersion key =>
      StorjService.getCurrentObjectVersion this key
  | call_getObjectVersionWithMetadata key versionId =>
      StorjService.getObjectVersionWithMetadata this key versionId
  | call_deleteObjectWithMarker key =>
      StorjService.deleteObjectWithMarker this key
  end.

(** A failure of the backend during an operation: the request is
    rejected with [e], or the request resolves and the body stream the
    operation reads emits, after any number of chunks and before it ends,
    the error [e]. *)
Definition backend_fails {A} (c : AdapterCall A) (b : B) (e : JsError)
  : Prop :=
  match fst (send (command_of this c) b) with
  | Rejected e' => e' = e
  | Resolved response =>
      reads_body c = true
      /\ exists chunks rest,
           Output.Body response
           = Some (map ev_data chunks ++ ev_error e :: rest)%list
  | Pending => False
  end.
End Perform.

(* ================================================================== *)
(** * The download routes, as one family                                 *)
(* ================================================================== *)

Inductive DownloadRoute :=
| route_downloadObjectVersion (key versionId : string)
| route_getCurrentObjectVersion (key : string)
| route_downloadLatestObject (key : string)
| route_getObjectVersionWithMetadata (key versionId : string).

Definition route_key (r : DownloadRoute) : string :=
  match r with
  | route_downloadObjectVersion key _ | route_getCurrentObjectVersion key
  | route_downloadLatestObject key | route_getObjectVersionWithMetadata key _ =>
      key
  end.

(** The command the route makes the adapter send. *)
Definition route_command (this : StorjService.t) (r : DownloadRoute)
  : Command :=
  let bucket := StorjService.bucket this in
  match r with
  | route_downloadObjectVersion key versionId
  | route_getObjectVersionWithMetadata key versionId =>
      GetObjectCommand bucket key (Some versionId)
  | route_getCurrentObjectVersion key | route_downloadLatestObject key =>
      GetObjectCommand bucket key None
  end.

(** Whether the route spreads the metadata of the object over the
    headers. *)
Definition spreads_metadata (r : DownloadRoute) : bool :=
  match r with
  | route_getCurrentObjectVersion _
  | route_getObjectVersionWithMetadata _ _ => true
  | _ => false
  end.

Definition handle {B : Type} `{S3Client B} (this : StorjService.t)
    (r : DownloadRoute) : Res -> World B -> Outcome unit * Res * World B :=
  match r with
  | route_downloadObjectVersion key versionId =>
      BucketVersioningController.downloadObjectVersion this key versionId
  | route_getCurrentObjectVersion key =>
      BucketVersioningController.getCurrentObjectVersion this key
  | route_downloadLatestObject key =>
      BucketVersioningController.downloadLatestObject this key
  | route_getObjectVersionWithMetadata key versionId =>
      BucketVersioningController.getObjectVersionWithMetadata this key
        versionId
  end.

(** The [Bucket] property of a command. *)
Definition command_bucket (c : Command) : option string :=
  match c with
  | PutObjectCommand b _ _ | GetObjectCommand b _ _ | ListObjectsV2Command b
  | ListObjectVersionsCommand b _ | DeleteObjectCommand b _ _
  | GetBucketVersioningCommand b => b
  end.

(** How a route answers for an adapter call, given how the call settled
    and the world it left: when the call resolved with [x], the route
    resolves in that world having added to [res] one [res.set] and then
    one [res.send] of the bytes [body x]; when the call was rejected or
    stays pending, the route settles the same way in that world and [res]
    is as it was. *)
Definition answers_for {B A : Type} (adapter : Outcome A * World B)
    (body : A -> Buffer) (res : Res)
    (route : Outcome unit * Res * World B) : Prop :=
  match adapter with
  | (Resolved x, w') =>
      exists headers,
        route
        = (Resolved tt, (res ++ [res_set headers; res_send (body x)])%list, w')
  | (Rejected e, w') => route = (Rejected e, res, w')
  | (Pending, w') => route = (Pending, res, w')
  end.

(** The lines of a log that are not at the plain level. *)
Definition is_alert (l : LogEntry) : bool :=
  match level l with
  | LOG => false
  | _ => true
  end.

(* ================================================================== *)
(** * A scripted backend                                                 *)
(* ================================================================== *)

(** A backend that answers the requests it receives with the outcomes of a
    script, in order, whatever the command; when the script is exhausted it
    does not answer. *)
Definition Script := list (Outcome Output.t).

#[export] Instance scripted : S3Client Script := {
  send _ s :=
    match s with
    | [] => (Pending, [])
    | r :: s' => (r, s')
    end
}.

Definition world0 (s : Script) : World Script := mkWorld s [] [].

(** A backend that gives every request the same answer and has no other
    state, as a mock with a fixed resolved value. *)
Record Canned := always { answer : Outcome Output.t }.

#[export] Instance canned : S3Client Canned := {
  send _ s := (answer s, s)
}.

Definition canned_world (r : Outcome Output.t) : World Canned :=
  mkWorld (always r) [] [].

Definition service0 : StorjService.t :=
  StorjService.mk
    (StorjService.mkS3 "us-east-1" "https://test-endpoint.com"
       "test-access-key" "test-secret-key" true)
    (Some "test-bucket").

Definition version (key id : string) (t : Z) : Entry.t :=
  Entry.mk (Some key) (Some id) (Some t) None.

Definition marker (key id : string) (t : Z) : Entry.t :=
  Entry.mk (Some key) (Some id) (Some t) (Some true).

Definition listing (versions markers : option (list Entry.t)) : Output.t :=
  Output.mk None None None versions markers None None.

(** The bucket of the scenario: two versions and one delete marker of
    [a.txt]. *)
Definition scenario : Output.t :=
  listing (Some [version "a.txt" "v1" 1; version "a.txt" "v2" 2])
          (Some [marker "a.txt" "dm1" 3]).

(** A listing without any delete marker. *)
Definition only_versions : Output.t :=
  listing (Some [version "a.txt" "v1" 1; version "a.txt" "v2" 2]) None.

(** A listing for the prefix [a]: it also holds a marker of [a.txt]. *)
Definition prefix_listing : Output.t :=
  listing (Some [version "a" "v1" 1])
          (Some [marker "a.txt" "dm9" 9; marker "a" "dm1" 2]).

(** The bucket of the scenario as the listing response carries it when the
    entries of [DeleteMarkers] have a key, a version identifier and a date,
    and no [IsDeleteMarker] property. *)
Definition untagged_scenario : Output.t :=
  listing (Some [version "a.txt" "v1" 1; version "a.txt" "v2" 2])
          (Some [Entry.mk (Some "a.txt") (Some "dm1") (Some 3) None]).

(** A listing whose delete-marker entry has no [IsDeleteMarker]
    property. *)
Definition unflagged_listing : Output.t :=
  listing (Some [version "a.txt" "v1" 1])
          (Some [Entry.mk (Some "a.txt") (Some "dm1") (Some 3) None]).

(** The settings of the test suite. *)
Definition test_config : StorjService.ConfigService :=
  fun k =>
    if String.eqb k "STORJ_ACCESS_KEY" then Some "test-access-key"
    else if String.eqb k "STORJ_SECRET_KEY" then Some "test-secret-key"
    else if String.eqb k "STORJ_ENDPOINT" then Some "https://test-endpoint.com"
    else if String.eqb k "STORJ_BUCKET" then Some "test-bucket"
    else None.

(** The same settings without the bucket name. *)
Definition config_without_bucket : StorjService.ConfigService :=
  fun k => if String.eqb k "STORJ_BUCKET" then None else test_config k.

(** A setting is missing when it is not set or set to the empty string. *)
Definition missing (v : option string) : Prop := v = None \/ v = Some "".

(** Bytes and chunks of an object body. *)
Definition chunk1 : Buffer := [Byte.x01; Byte.x02].
Definition chunk2 : Buffer := [Byte.x03].

(** A response to [GetObject]: a body in two chunks, and metadata that
    sets a content type. *)
Definition object_response : Output.t :=
  Output.mk (Some [ev_data chunk1; ev_data chunk2; ev_end])
    (Some [("Content-Type", "text/plain"); ("owner", "alice")])
    None None None None None.

(** A listing in which a version and two markers have the same time. *)
Definition tied_listing : Output.t :=
  listing (Some [version "a.txt" "v1" 5])
          (Some [marker "a.txt" "dmA" 5; marker "a.txt" "dmB" 5]).

(** A listing whose only marker has no version identifier. *)
Definition anonymous_marker_listing : Output.t :=
  listing None (Some [Entry.mk (Some "a.txt") None (Some 3) (Some true)]).

(** The time by which the listing orders an entry: its last-modified time,
    zero when it has none. *)
Definition timeOrZero (e : Entry.t) : Z :=
  match Entry.LastModified e with
  | Some t => t
  | None => 0
  end.

(** Most recent first. *)
Definition newerFirst (a b : Entry.t) : Prop := timeOrZero b <= timeOrZero a.

(** The entries of a key that are delete markers, as a proposition. *)
Definition MarkerOf (key : string) (v : Entry.t) : Prop :=
  Entry.IsDeleteMarker v = Some true /\ Entry.Key v = Some key.

(** The commands an execution added to the ones sent before it. *)
Definition sent_by {B A} (m : M B A) (w : World B) : list Command :=
  skipn (List.length (requests w)) (requests (snd (m w))).

(** The lines an execution added to the log. *)
Definition logged_by {B A} (m : M B A) (w : World B) : list LogEntry :=
  skipn (List.length (logged w)) (logged (snd (m w))).

(* ================================================================== *)
(** * Sorting                                                            *)
(* ================================================================== *)

Section SortFacts.
Variable A : Type.
Variable comparefn : A -> A -> Num.

Lemma sort_insert_perm (x : A) (l : list A) :
  Permutation (sort_insert comparefn x l) (x :: l).
Proof.
  induction l as [|y l IH]; simpl.
  - apply Permutation_refl.
  - destruct (SortCompare comparefn x y <=? 0).
    + apply Permutation_refl.
    + eapply perm_trans; [apply perm_skip, IH | apply perm_swap].
Qed.

Lemma js_sort_perm (l : list A) : Permutation (js_sort comparefn l) l.
Proof.
  induction l as [|x l IH]; simpl.
  - constructor.
  - eapply perm_trans; [apply sort_insert_perm | apply perm_skip, IH].
Qed.

Lemma js_sort_length (l : list A) :
  List.length (js_sort comparefn l) = List.length l.
Proof. apply Permutation_length, js_sort_perm. Qed.

Lemma js_sort_In (x : A) (l : list A) :
  In x (js_sort comparefn l) <-> In x l.
Proof.
  split; apply Permutation_in;
    [apply js_sort_perm | apply Permutation_sym, js_sort_perm].
Qed.

(** A list whose neighbours are never strictly out of order is left as it
    is. *)
Lemma js_sort_fixed (l : list A) :
  Sorted (fun x y => SortCompare comparefn x y <= 0) l ->
  js_sort comparefn l = l.
Proof.
  induction 1 as [|x l Hs IH Hhd]; simpl; [reflexivity|].
  rewrite IH. destruct Hhd as [|y l Hxy]; simpl; [reflexivity|].
  apply Z.leb_le in Hxy. now rewrite Hxy.
Qed.

(** When the comparator is the difference of a key, the result is in
    descending order of the key. *)
Section Keyed.
Variable key : A -> Z.
Hypothesis comparefn_key :
  forall x y, comparefn x y = num (key y - key x).

Lemma sort_insert_sorted (x : A) (l : list A) :
  StronglySorted (fun a b => key b <= key a) l ->
  StronglySorted (fun a b => key b <= key a) (sort_insert comparefn x l).
Proof.
  induction 1 as [|y l Hs IH Hall]; simpl.
  - repeat constructor.
  - unfold SortCompare. rewrite comparefn_key.
    destruct (Z.leb_spec (key y - key x) 0) as [Hle|Hgt].
    + constructor; [constructor; assumption|].
      constructor; [lia|].
      eapply Forall_impl; [|exact Hall].
      cbv beta; intros; lia.
    + constructor; [assumption|].
      eapply Permutation_Forall;
        [apply Permutation_sym, sort_insert_perm|].
      constructor; [lia | assumption].
Qed.

Lemma js_sort_sorted (l : list A) :
  StronglySorted (fun a b => key b <= key a) (js_sort comparefn l).
Proof.
  induction l as [|x l IH]; simpl.
  - constructor.
  - apply sort_insert_sorted, IH.
Qed.
(** The sort is stable: the elements of one key keep the order they had. *)
Lemma sort_insert_stable (k : Z) (x : A) (l : list A) :
  filter (fun a => key a =? k) (sort_insert comparefn x l)
  = filter (fun a => key a =? k) (x :: l).
Proof.
  induction l as [|y l IH]; [reflexivity|].
  cbn [sort_insert]. unfold SortCompare. rewrite comparefn_key.
  destruct (Z.leb_spec (key y - key x) 0) as [Hle|Hgt]; [reflexivity|].
  cbn [filter] in *. rewrite IH.
  destruct (Z.eqb_spec (key x) k) as [Hx|Hx];
    destruct (Z.eqb_spec (key y) k) as [Hy|Hy]; try reflexivity.
  lia.
Qed.

Lemma js_sort_stable (k : Z) (l : list A) :
  filter (fun a => key a =? k) (js_sort comparefn l)
  = filter (fun a => key a =? k) l.
Proof.
  induction l as [|x l IH]; [reflexivity|].
  cbn [js_sort]. rewrite sort_insert_stable. cbn [filter]. now rewrite IH.
Qed.
End Keyed.
End SortFacts.

Lemma StronglySorted_filter {A} (R : A -> A -> Prop) (p : A -> bool) l :
  StronglySorted R l -> StronglySorted R (filter p l).
Proof.
  induction 1 as [|x l Hs IH Hall]; simpl; [constructor|].
  destruct (p x); [|assumption].
  constructor; [assumption|].
  rewrite Forall_forall in *. intros y Hy.
  apply filter_In in Hy. apply Hall, Hy.
Qed.

Lemma StronglySorted_weaken {A} (R R' : A -> A -> Prop) l :
  (forall x y, R x y -> R' x y) ->
  StronglySorted R l -> Sorted R' l.
Proof.
  intros HR Hs. apply StronglySorted_Sorted.
  induction Hs as [|x l Hs IH Hall]; constructor; [assumption|].
  eapply Forall_impl; [|exact Hall]. intros; now apply HR.
Qed.

(* ================================================================== *)
(** * The two comparators                                                *)
(* ================================================================== *)

Lemma byDateOrZeroDesc_key (x y : Entry.t) :
  StorjService.byDateOrZeroDesc x y = num (timeOrZero y - timeOrZero x).
Proof.
  unfold StorjService.byDateOrZeroDesc, StorjService.dateOrZero, timeOrZero.
  destruct (Entry.LastModified x), (Entry.LastModified y); reflexivity.
Qed.

Lemma merged_sorted (l : list Entry.t) :
  StronglySorted newerFirst (js_sort StorjService.byDateOrZeroDesc l).
Proof.
  exact (@js_sort_sorted _ StorjService.byDateOrZeroDesc timeOrZero
           byDateOrZeroDesc_key l).
Qed.

(** Two entries that the listing has put in order are never strictly out
    of order for the comparator of [undeleteObject]: it computes the same
    difference when both have a date, and [NaN] otherwise. *)
Lemma byDateDesc_agrees (x y : Entry.t) :
  newerFirst x y -> SortCompare StorjService.byDateDesc x y <= 0.
Proof.
  unfold newerFirst, timeOrZero, SortCompare, StorjService.byDateDesc.
  destruct (Entry.LastModified x), (Entry.LastModified y); simpl; lia.
Qed.

Lemma resort_markers (key : string) (l : list Entry.t) :
  js_sort StorjService.byDateDesc
    (filter (StorjService.isMarkerOf key)
       (js_sort StorjService.byDateOrZeroDesc l))
  = filter (StorjService.isMarkerOf key)
      (js_sort StorjService.byDateOrZeroDesc l).
Proof.
  apply js_sort_fixed.
  apply StronglySorted_weaken with (R := newerFirst).
  - apply byDateDesc_agrees.
  - apply StronglySorted_filter, merged_sorted.
Qed.

Lemma isMarkerOf_spec (key : string) (v : Entry.t) :
  StorjService.isMarkerOf key v = true <-> MarkerOf key v.
Proof.
  unfold StorjService.isMarkerOf, StorjService.truthy, StorjService.strictEq,
    MarkerOf.
  destruct (Entry.IsDeleteMarker v) as [[|]|], (Entry.Key v) as [k|];
    simpl; try (split; [discriminate | intros [? ?]; discriminate]).
  rewrite String.eqb_eq. split.
  - intros ->. split; reflexivity.
  - intros [_ Hk]. now inversion Hk.
Qed.

(** The first marker of a key in a list in listing order is a marker of
    the key at least as recent as every other. *)
Lemma first_marker_latest (key : string) (l : list Entry.t) m rest :
  StronglySorted newerFirst l ->
  filter (StorjService.isMarkerOf key) l = m :: rest ->
  In m l /\ MarkerOf key m
  /\ forall d, In d l -> MarkerOf key d -> newerFirst m d.
Proof.
  intros Hs Hf.
  assert (Hm : In m (filter (StorjService.isMarkerOf key) l))
    by (rewrite Hf; now left).
  apply filter_In in Hm. destruct Hm as [Hin Hmk].
  split; [assumption|]. split; [now apply isMarkerOf_spec|].
  intros d Hd Hdm.
  assert (Hd' : In d (m :: rest)).
  { rewrite <- Hf. apply filter_In. split; [assumption|].
    now apply isMarkerOf_spec. }
  assert (Hs' : StronglySorted newerFirst (m :: rest))
    by (rewrite <- Hf; now apply StronglySorted_filter).
  destruct Hd' as [<-|Hd'].
  - unfold newerFirst; lia.
  - inversion Hs' as [|? ? _ Hall]; subst.
    rewrite Forall_forall in Hall. now apply Hall.
Qed.

(** When the first entry of the key in a list is a marker, it is the first
    marker of the key. *)
Lemma first_of_key_marker (key : string) (l : list Entry.t) e :
  find (fun v => StorjService.strictEq (Entry.Key v) key) l = Some e ->
  Entry.IsDeleteMarker e = Some true ->
  exists rest, filter (StorjService.isMarkerOf key) l = e :: rest.
Proof.
  induction l as [|x l IH]; simpl; [discriminate|].
  unfold StorjService.isMarkerOf at 1.
  destruct (StorjService.strictEq (Entry.Key x) key) eqn:Hk.
  - intros [= ->] Hflag. rewrite Hflag. simpl. eauto.
  - rewrite andb_false_r. exact IH.
Qed.

(* ================================================================== *)
(** * Running the methods                                                *)
(* ================================================================== *)

Lemma skipn_exact {A} (l x : list A) : skipn (List.length l) (l ++ x) = x.
Proof. induction l; simpl; auto. Qed.

Ltac unfold_async :=
  cbv beta iota zeta delta
    [bind try_catch ret throw await logger_log logger_log_object logger_warn
     logger_error write_log s3Client_send];
  cbn [backend requests logged fst snd].

Ltac unfold_methods :=
  cbv beta iota delta
    [perform sent_by logged_by
     BucketVersioningController.getVersioningStatus
     BucketVersioningController.listObjectVersions
     BucketVersioningController.deleteObjectWithMarker
     BucketVersioningController.undeleteObject
     BucketVersioningController.listObjectVersionsForKey
     BucketVersioningService.isVersioningEnabled
     BucketVersioningService.listObjectVersions
     BucketVersioningService.deleteObjectVersion
     BucketVersioningService.deleteObjectWithMarker
     BucketVersioningService.undeleteObject
     BucketVersioningService.listObjectVersionsForKey
     BucketVersioningService.uploadFile
     StorjService.uploadFile StorjService.downloadFile
     StorjService.listObjects StorjService.listObjectVersions
     StorjService.getObjectVersion StorjService.deleteObjectVersion
     StorjService.isVersioningEnabled StorjService.listObjectVersionsForKey
     StorjService.getCurrentObjectVersion
     StorjService.getObjectVersionWithMetadata
     StorjService.deleteObjectWithMarker].

(** Evaluate a method on a world in which the answer [Hsend] of the backend
    to its command is known. *)
Ltac run_with Hsend :=
  unfold_methods; unfold_async; rewrite Hsend; unfold_async.

Section Runs.
Context {B : Type} `{S3Client B}.
Variable this : StorjService.t.

Lemma listObjectVersionsForKey_resolved key (w : World B) response b1 :
  send (ListObjectVersionsCommand (StorjService.bucket this) (Some key))
    (backend w) = (Resolved response, b1) ->
  StorjService.listObjectVersionsForKey this key w
  = (Resolved (js_sort StorjService.byDateOrZeroDesc
                 (StorjService.spread response)),
     mkWorld b1
       (requests w
          ++ [ListObjectVersionsCommand (StorjService.bucket this)
                (Some key)])
       (((logged w
            ++ [mkLog LOG
                  (text ("Listing object versions for key: " ++ key)) None])
           ++ [mkLog LOG (object response) None])
          ++ [mkLog LOG
                (text ("Found "
                       ++ js_nat (List.length
                            (js_sort StorjService.byDateOrZeroDesc
                               (StorjService.spread response)))
                       ++ " versions/markers for key: " ++ key)) None])).
Proof. intros Hsend. run_with Hsend. reflexivity. Qed.
End Runs.

(* ================================================================== *)
(** * What the operations return                                         *)
(* ================================================================== *)

Section Responses.
Context {B : Type} `{S3Client B}.
Variable this : StorjService.t.

(** C3: when the backend answers the per-key listing request with a
    response holding N entries under [Versions] and M under
    [DeleteMarkers] (an absent array holding none),
    [listObjectVersionsForKey] resolves with a list of exactly N+M
    entries, a permutation of the concatenation of the two arrays, in
    descending order of last-modified time, an entry without a time
    being ordered as time zero. *)
Theorem listObjectVersionsForKey_merged_descending
    (key : string) (w : World B) (response : Output.t) (b1 : B) :
  send (ListObjectVersionsCommand (StorjService.bucket this) (Some key))
    (backend w) = (Resolved response, b1) ->
  let versions := or_else (Output.Versions response) [] in
  let markers := or_else (Output.DeleteMarkers response) [] in
  exists l,
    fst (StorjService.listObjectVersionsForKey this key w) = Resolved l
    /\ Permutation l (versions ++ markers)
    /\ List.length l = (List.length versions + List.length markers)%nat
    /\ StronglySorted (fun a b => timeOrZero b <= timeOrZero a) l.
Proof.
  intros Hsend versions markers.
  rewrite (listObjectVersionsForKey_resolved this key w Hsend).
  eexists. split; [reflexivity|].
  split; [apply js_sort_perm|].
  split; [|apply merged_sorted].
  rewrite js_sort_length. apply length_app.
Qed.

(** C9: when the backend answers the bucket-wide listing request, the
    route [GET versions] resolves with exactly the entries of the
    [Versions] array of the response, in its order, whatever the
    [DeleteMarkers] array holds; the per-key listing of the same
    response holds every entry of [DeleteMarkers] as well. *)
Theorem listObjectVersions_only_versions
    (w : World B) (response : Output.t) (b1 : B) :
  send (ListObjectVersionsCommand (StorjService.bucket this) None)
    (backend w) = (Resolved response, b1) ->
  fst (BucketVersioningController.listObjectVersions this w)
  = Resolved (or_else (Output.Versions response) [])
  /\ forall key (w' : World B) b',
       send (ListObjectVersionsCommand (StorjService.bucket this)
               (Some key)) (backend w') = (Resolved response, b') ->
       exists l,
         fst (BucketVersioningController.listObjectVersionsForKey
                this key w') = Resolved l
         /\ forall d, In d (or_else (Output.DeleteMarkers response) []) ->
                      In d l.
Proof.
  intros Hsend. split.
  - run_with Hsend. reflexivity.
  - intros key w' b' Hsend'.
    unfold BucketVersioningController.listObjectVersionsForKey,
      BucketVersioningService.listObjectVersionsForKey.
    rewrite (listObjectVersionsForKey_resolved this key w' Hsend').
    eexists. split; [reflexivity|].
    intros d Hd. apply js_sort_In. unfold StorjService.spread.
    apply in_or_app. now right.
Qed.

(** C10: a response in which [Contents], [Versions] and [DeleteMarkers]
    are absent makes each of [listObjects], [listObjectVersions] and
    [listObjectVersionsForKey] resolve with the empty list. *)
Theorem listings_absent_arrays_empty
    (key : string) (w : World B) (response : Output.t) :
  Output.Contents response = None ->
  Output.Versions response = None ->
  Output.DeleteMarkers response = None ->
  (forall b1,
      send (ListObjectsV2Command (StorjService.bucket this)) (backend w)
      = (Resolved response, b1) ->
      fst (StorjService.listObjects this w) = Resolved [])
  /\ (forall b1,
      send (ListObjectVersionsCommand (StorjService.bucket this) None)
        (backend w) = (Resolved response, b1) ->
      fst (StorjService.listObjectVersions this w) = Resolved [])
  /\ (forall b1,
      send (ListObjectVersionsCommand (StorjService.bucket this)
              (Some key)) (backend w) = (Resolved response, b1) ->
      fst (StorjService.listObjectVersionsForKey this key w) = Resolved []).
Proof.
  intros Hc Hv Hd. repeat split; intros b1 Hsend.
  - run_with Hsend. now rewrite Hc.
  - run_with Hsend. now rewrite Hv.
  - rewrite (listObjectVersionsForKey_resolved this key w Hsend).
    unfold StorjService.spread. now rewrite Hv, Hd.
Qed.

(** C5: when the backend answers the bucket-versioning request,
    [isVersioningEnabled] resolves with [true] if and only if the
    [Status] of the response is the string [Enabled]; with any other
    status, or none, it resolves with [false]. *)
Theorem isVersioningEnabled_iff_Enabled
    (w : World B) (response : Output.t) (b1 : B) :
  send (GetBucketVersioningCommand (StorjService.bucket this)) (backend w)
  = (Resolved response, b1) ->
  exists enabled,
    fst (StorjService.isVersioningEnabled this w) = Resolved enabled
    /\ (enabled = true <-> Output.Status response = Some "Enabled")
    /\ (Output.Status response <> Some "Enabled" -> enabled = false).
Proof.
  intros Hsend. run_with Hsend.
  eexists. split; [reflexivity|].
  destruct (Output.Status response) as [s|].
  - destruct (String.eqb_spec s "Enabled") as [->|Hne].
    + repeat split; congruence.
    + repeat split; congruence.
  - repeat split; congruence.
Qed.

(** C8: when the backend answers the unversioned delete request, the
    route [DELETE delete/:key] sends that one request, without a version
    identifier, and resolves with the object whose [deleteVersionId] is
    the [VersionId] of the response, undefined when the response has
    none. *)
Theorem deleteObjectWithMarker_returns_marker_version
    (key : string) (w : World B) (response : Output.t) (b1 : B) :
  send (DeleteObjectCommand (StorjService.bucket this) key None) (backend w)
  = (Resolved response, b1) ->
  fst (BucketVersioningController.deleteObjectWithMarker this key w)
  = Resolved (BucketVersioningController.mkDelete
                (Output.VersionId response))
  /\ sent_by (BucketVersioningController.deleteObjectWithMarker this key) w
     = [DeleteObjectCommand (StorjService.bucket this) key None].
Proof.
  intros Hsend. split.
  - run_with Hsend. reflexivity.
  - unfold sent_by. run_with Hsend. apply skipn_exact.
Qed.
End Responses.

(* ================================================================== *)
(** * Undelete                                                           *)
(* ================================================================== *)

Section Undelete.
Context {B : Type} `{S3Client B}.
Variable this : StorjService.t.

(** What [undeleteObject] does, by the answer to the listing request and
    by the markers of the key among the entries listed. *)
Lemma undeleteObject_run (key : string) (w : World B) :
  let r := StorjService.undeleteObject this key w in
  let list_for :=
    ListObjectVersionsCommand (StorjService.bucket this) (Some key) in
  let delete_of m :=
    DeleteObjectCommand (StorjService.bucket this) key (Entry.VersionId m) in
  match send list_for (backend w) with
  | (Resolved response, b1) =>
      match filter (StorjService.isMarkerOf key)
              (js_sort StorjService.byDateOrZeroDesc
                 (StorjService.spread response)) with
      | [] =>
          fst r = Rejected (newError "No delete marker found for the object")
          /\ requests (snd r) = (requests w ++ [list_for])%list
          /\ backend (snd r) = b1
      | m :: _ =>
          fst r = fst (send (delete_of m) b1)
          /\ requests (snd r)
             = (requests w ++ [list_for; delete_of m])%list
          /\ backend (snd r) = snd (send (delete_of m) b1)
      end
  | (Rejected e, b1) =>
      fst r = Rejected e
      /\ requests (snd r) = (requests w ++ [list_for])%list
      /\ backend (snd r) = b1
  | (Pending, b1) =>
      fst r = Pending
      /\ requests (snd r) = (requests w ++ [list_for])%list
      /\ backend (snd r) = b1
  end.
Proof.
  cbv beta zeta.
  destruct (send _ (backend w)) as [[response|e|] b1] eqn:Hsend.
  - unfold StorjService.undeleteObject. unfold_async.
    erewrite listObjectVersionsForKey_resolved by exact Hsend.
    unfold_async. rewrite resort_markers.
    destruct (filter _ _) as [|m rest]; cbn [List.length Nat.eqb].
    + unfold_async. repeat split; reflexivity.
    + unfold_async. unfold StorjService.deleteObjectVersion. unfold_async.
      destruct (send _ b1) as [[result|e|] b2]; unfold_async;
        rewrite <- app_assoc; repeat split; reflexivity.
  - unfold StorjService.undeleteObject. run_with Hsend.
    repeat split; reflexivity.
  - unfold StorjService.undeleteObject. run_with Hsend.
    repeat split; reflexivity.
Qed.

(** What [undeleteObject] does for entries that carry the flag: when the
    backend answers the listing request for [key] and the entries listed
    hold a flagged delete marker of the key (an entry whose
    [IsDeleteMarker] is true and whose [Key] is [key]),
    [undeleteObject] selects such a marker [m] whose last-modified time
    (zero when missing) is at least that of every other; it sends, after
    the listing request, exactly one more command, the versioned delete
    of [key] at the [VersionId] of [m]; and it settles as that delete
    request does.  When the first entry of the key in the merged listing
    is a delete marker, [m] is that entry. *)
Theorem undeleteObject_removes_latest_marker
    (key : string) (w : World B) (response : Output.t) (b1 : B) :
  send (ListObjectVersionsCommand (StorjService.bucket this) (Some key))
    (backend w) = (Resolved response, b1) ->
  (exists d, In d (StorjService.spread response) /\ MarkerOf key d) ->
  exists m,
    In m (StorjService.spread response)
    /\ MarkerOf key m
    /\ (forall d, In d (StorjService.spread response) -> MarkerOf key d ->
                  timeOrZero d <= timeOrZero m)
    /\ (forall e,
           find (fun v => StorjService.strictEq (Entry.Key v) key)
             (js_sort StorjService.byDateOrZeroDesc
                (StorjService.spread response)) = Some e ->
           Entry.IsDeleteMarker e = Some true -> m = e)
    /\ let delete :=
         DeleteObjectCommand (StorjService.bucket this) key
           (Entry.VersionId m) in
       sent_by (StorjService.undeleteObject this key) w
       = [ListObjectVersionsCommand (StorjService.bucket this) (Some key);
          delete]
       /\ fst (StorjService.undeleteObject this key w)
          = fst (send delete b1)
       /\ backend (snd (StorjService.undeleteObject this key w))
          = snd (send delete b1).
Proof.
  intros Hsend [d [Hd Hdm]].
  pose proof (undeleteObject_run key w) as Hrun.
  cbv beta zeta in Hrun. rewrite Hsend in Hrun.
  destruct (filter _ _) as [|m rest] eqn:Hf.
  - exfalso.
    assert (Hin : In d (filter (StorjService.isMarkerOf key)
                          (js_sort StorjService.byDateOrZeroDesc
                             (StorjService.spread response)))).
    { apply filter_In. split; [now apply js_sort_In|].
      now apply isMarkerOf_spec. }
    rewrite Hf in Hin. contradiction.
  - destruct (first_marker_latest _ (merged_sorted _) Hf)
      as [Hin [Hm Hmax]].
    exists m. split; [now apply js_sort_In in Hin|]. split; [assumption|].
    split.
    { intros d' Hd' Hdm'. apply (Hmax d'); [now apply js_sort_In|assumption]. }
    split.
    { intros e He Hflag.
      destruct (first_of_key_marker _ _ He Hflag) as [rest' Hf'].
      congruence. }
    destruct Hrun as [Hres [Hreq Hback]].
    cbv zeta. unfold sent_by. rewrite Hreq.
    split; [apply skipn_exact|]. split; assumption.
Qed.

(** C2: when the backend answers the listing request for [key] and no
    entry listed is a delete marker of the key, [undeleteObject] rejects
    with the error [No delete marker found for the object]; the listing
    request is the only command it sends, so it sends no delete, and the
    backend is left in the state in which the listing request left it:
    unchanged, when listing does not change it. *)
Theorem undeleteObject_no_marker_rejects
    (key : string) (w : World B) (response : Output.t) (b1 : B) :
  send (ListObjectVersionsCommand (StorjService.bucket this) (Some key))
    (backend w) = (Resolved response, b1) ->
  (forall d, In d (StorjService.spread response) -> ~ MarkerOf key d) ->
  fst (StorjService.undeleteObject this key w)
  = Rejected (newError "No delete marker found for the object")
  /\ sent_by (StorjService.undeleteObject this key) w
     = [ListObjectVersionsCommand (StorjService.bucket this) (Some key)]
  /\ (forall c, In c (sent_by (StorjService.undeleteObject this key) w) ->
                is_delete c = false)
  /\ backend (snd (StorjService.undeleteObject this key w)) = b1
  /\ (b1 = backend w ->
      backend (snd (StorjService.undeleteObject this key w)) = backend w).
Proof.
  intros Hsend Hnone.
  pose proof (undeleteObject_run key w) as Hrun.
  cbv beta zeta in Hrun. rewrite Hsend in Hrun.
  destruct (filter _ _) as [|m rest] eqn:Hf.
  - destruct Hrun as [Hres [Hreq Hback]].
    assert (Hsent : sent_by (StorjService.undeleteObject this key) w
                    = [ListObjectVersionsCommand
                         (StorjService.bucket this) (Some key)])
      by (unfold sent_by; rewrite Hreq; apply skipn_exact).
    split; [assumption|]. split; [assumption|].
    split; [|split; [assumption | congruence]].
    intros c Hc. rewrite Hsent in Hc.
    destruct Hc as [<-|[]]. reflexivity.
  - exfalso.
    destruct (first_marker_latest _ (merged_sorted _) Hf) as [Hin [Hm _]].
    apply js_sort_In in Hin. exact (Hnone m Hin Hm).
Qed.

(** C4: every delete command that [undeleteObject] sends for [key] is
    the versioned delete of [key] at the [VersionId] of an entry of the
    listing response that passes the filter: its [IsDeleteMarker] is
    true and its [Key] is exactly [key]. *)
Theorem undeleteObject_deletes_only_markers_of_key
    (key : string) (w : World B) (c : Command) :
  In c (sent_by (StorjService.undeleteObject this key) w) ->
  is_delete c = true ->
  exists response b1 m,
    send (ListObjectVersionsCommand (StorjService.bucket this) (Some key))
      (backend w) = (Resolved response, b1)
    /\ In m (StorjService.spread response)
    /\ Entry.IsDeleteMarker m = Some true
    /\ Entry.Key m = Some key
    /\ StorjService.isMarkerOf key m = true
    /\ c = DeleteObjectCommand (StorjService.bucket this) key
             (Entry.VersionId m).
Proof.
  intros Hc Hdel.
  pose proof (undeleteObject_run key w) as Hrun.
  cbv beta zeta in Hrun. unfold sent_by in Hc.
  destruct (send _ (backend w)) as [[response|e|] b1] eqn:Hsend.
  - destruct (filter _ _) as [|m rest] eqn:Hf;
      destruct Hrun as [_ [Hreq _]]; rewrite Hreq, skipn_exact in Hc.
    + destruct Hc as [<-|[]]. discriminate.
    + destruct (first_marker_latest _ (merged_sorted _) Hf)
        as [Hin [Hm _]].
      destruct Hc as [<-|[<-|[]]]; [discriminate|].
      exists response, b1, m.
      split; [reflexivity|]. split; [now apply js_sort_In in Hin|].
      destruct Hm as [Hflag Hkey].
      repeat split; try assumption.
      apply isMarkerOf_spec. now split.
  - destruct Hrun as [_ [Hreq _]]. rewrite Hreq, skipn_exact in Hc.
    destruct Hc as [<-|[]]. discriminate.
  - destruct Hrun as [_ [Hreq _]]. rewrite Hreq, skipn_exact in Hc.
    destruct Hc as [<-|[]]. discriminate.
Qed.
End Undelete.

(* ================================================================== *)
(** * Configuration                                                      *)
(* ================================================================== *)

Lemma not_spec (v : option string) :
  StorjService.not_ v = true <-> missing v.
Proof.
  unfold StorjService.not_, missing. destruct v as [s|].
  - rewrite String.eqb_eq. split.
    + intros ->. now right.
    + intros [Hn|[= ->]]; [discriminate | reflexivity].
  - split; auto.
Qed.

(** C6, as the code has it: the constructor throws the error
    [Storj configuration is incomplete] exactly when the access key, the
    secret key or the endpoint is not set or is empty; the bucket name is
    not checked.  With the three set and not empty it constructs the
    client from them and keeps the bucket name as configured, set or
    not. *)
Theorem constructor_checks_three_settings
    (configService : StorjService.ConfigService) :
  let accessKey := configService "STORJ_ACCESS_KEY" in
  let secretKey := configService "STORJ_SECRET_KEY" in
  let endpoint := configService "STORJ_ENDPOINT" in
  (missing accessKey \/ missing secretKey \/ missing endpoint <->
   snd (StorjService.constructor configService)
   = inl (newError "Storj configuration is incomplete"))
  /\ (forall a s e,
        accessKey = Some a -> secretKey = Some s -> endpoint = Some e ->
        a <> "" -> s <> "" -> e <> "" ->
        snd (StorjService.constructor configService)
        = inr (StorjService.mk (StorjService.mkS3 "us-east-1" e a s true)
                 (configService "STORJ_BUCKET"))).
Proof.
  cbv zeta. unfold StorjService.constructor.
  pose proof (not_spec (configService "STORJ_ACCESS_KEY")) as Ha.
  pose proof (not_spec (configService "STORJ_SECRET_KEY")) as Hs.
  pose proof (not_spec (configService "STORJ_ENDPOINT")) as He.
  destruct (StorjService.not_ (configService "STORJ_ACCESS_KEY"));
    destruct (StorjService.not_ (configService "STORJ_SECRET_KEY"));
    destruct (StorjService.not_ (configService "STORJ_ENDPOINT"));
    cbn [orb snd]; (split; [split|]).
  all: try (intros _; reflexivity).
  all: try discriminate.
  all: try (intros _; first [left; now apply Ha
                            | right; left; now apply Hs
                            | right; right; now apply He]).
  all: try (intros a s e Hka Hks Hke Hna Hns Hne;
            exfalso;
            first [ assert (Hm : missing (configService "STORJ_ACCESS_KEY"))
                      by (now apply Ha);
                    rewrite Hka in Hm; destruct Hm as [Hm|Hm];
                    [discriminate | injection Hm as ->; now apply Hna]
                  | assert (Hm : missing (configService "STORJ_SECRET_KEY"))
                      by (now apply Hs);
                    rewrite Hks in Hm; destruct Hm as [Hm|Hm];
                    [discriminate | injection Hm as ->; now apply Hns]
                  | assert (Hm : missing (configService "STORJ_ENDPOINT"))
                      by (now apply He);
                    rewrite Hke in Hm; destruct Hm as [Hm|Hm];
                    [discriminate | injection Hm as ->; now apply Hne] ]).
  - intros [Hm|[Hm|Hm]]; exfalso;
      [apply Ha in Hm | apply Hs in Hm | apply He in Hm]; discriminate.
  - intros a s e -> -> -> _ _ _. reflexivity.
Qed.

(** C6, as stated, fails on the bucket name: without it the constructor
    succeeds, and the adapter has no bucket. *)
Lemma constructor_accepts_missing_bucket :
  config_without_bucket "STORJ_BUCKET" = None
  /\ snd (StorjService.constructor config_without_bucket)
     = inr (StorjService.mk
              (StorjService.mkS3 "us-east-1" "https://test-endpoint.com"
                 "test-access-key" "test-secret-key" true)
              None)
  /\ forall e, snd (StorjService.constructor config_without_bucket) <> inl e.
Proof. repeat split. intros e. discriminate. Qed.

(* ================================================================== *)
(** * The error path of the adapter operations                           *)
(* ================================================================== *)

Lemma drain_data (chunks : list Buffer) (events : Stream) (acc : list Buffer) :
  StorjService.drain (map ev_data chunks ++ events)%list acc
  = StorjService.drain events (acc ++ chunks)%list.
Proof.
  revert acc. induction chunks as [|c chunks IH]; intros acc; simpl.
  - now rewrite app_nil_r.
  - rewrite IH, <- app_assoc. reflexivity.
Qed.

Lemma streamToBuffer_fails (chunks : list Buffer) (rest : Stream) e :
  StorjService.streamToBuffer
    (Some (map ev_data chunks ++ ev_error e :: rest)%list)
  = Rejected e.
Proof. unfold StorjService.streamToBuffer. now rewrite drain_data. Qed.

Ltac close_failure :=
  unfold_async;
  split; [reflexivity|];
  split; [apply skipn_exact|];
  rewrite <- ?app_assoc, skipn_exact; cbn; eexists; reflexivity.

Section ErrorPath.
Context {B : Type} `{S3Client B}.
Variable this : StorjService.t.

(** C7: when the backend fails during an adapter operation with the
    error [e] (the request is rejected with [e], or the body stream the
    operation reads emits [e] after any chunks and before its end), the
    operation rejects with [e] itself; the command of the operation is the
    only one it sends, once; and it writes exactly one line at error level,
    which carries [e]. *)
Theorem adapter_operation_fails_fast
    (A : Type) (c : AdapterCall A) (w : World B) (e : JsError) :
  backend_fails this c (backend w) e ->
  fst (perform this c w) = Rejected e
  /\ sent_by (perform this c) w = [command_of this c]
  /\ exists s,
       filter is_error_level (logged_by (perform this c) w)
       = [mkLog ERROR (text s) (Some e)].
Proof.
  intros Hfail. unfold backend_fails in Hfail.
  destruct c; cbn [command_of reads_body] in *;
    destruct (send _ (backend w)) as [[response|e'|] b1] eqn:Hsend;
    cbn [fst] in Hfail; try contradiction.
  all: lazymatch type of Hfail with
       | _ = _ => subst e'; run_with Hsend; close_failure
       | _ /\ _ =>
           destruct Hfail as [Hrb [chunks [rest Hbody]]];
           first [ discriminate Hrb
                 | run_with Hsend; rewrite Hbody, streamToBuffer_fails;
                   close_failure ]
       end.
Qed.
End ErrorPath.

(* ================================================================== *)
(** * The scenario of the specification, and instances                   *)
(* ================================================================== *)

(** The per-key listing of the scenario: [dm1], then [v2], then [v1]. *)
Example scenario_listing :
  fst (StorjService.listObjectVersionsForKey service0 "a.txt"
         (world0 [Resolved scenario]))
  = Resolved [marker "a.txt" "dm1" 3; version "a.txt" "v2" 2;
              version "a.txt" "v1" 1].
Proof. reflexivity. Qed.

(** Undelete in the scenario: the listing request, then the delete of
    [dm1]. *)
Example scenario_undelete :
  requests (snd (StorjService.undeleteObject service0 "a.txt"
                   (world0 [Resolved scenario; Resolved Output.empty])))
  = [ListObjectVersionsCommand (Some "test-bucket") (Some "a.txt");
     DeleteObjectCommand (Some "test-bucket") "a.txt" (Some "dm1")].
Proof. reflexivity. Qed.

(** For the key [a] the listing by prefix also returns the more recent
    marker of [a.txt]; the marker removed is the one of [a]. *)
Example prefix_undelete :
  requests (snd (StorjService.undeleteObject service0 "a"
                   (world0 [Resolved prefix_listing; Resolved Output.empty])))
  = [ListObjectVersionsCommand (Some "test-bucket") (Some "a");
     DeleteObjectCommand (Some "test-bucket") "a" (Some "dm1")].
Proof. reflexivity. Qed.

(** An entry of [DeleteMarkers] that has no [IsDeleteMarker] property does
    not pass the filter of [undeleteObject]. *)
Remark undelete_needs_the_flag :
  fst (StorjService.undeleteObject service0 "a.txt"
         (world0 [Resolved unflagged_listing; Resolved Output.empty]))
  = Rejected (newError "No delete marker found for the object").
Proof. reflexivity. Qed.

(** C1 fails on the code: [listObjectVersionsForKey] merges the entries of
    [DeleteMarkers] as they are, without marking them, and the filter of
    [undeleteObject] keeps only entries whose [IsDeleteMarker] is truthy.
    In the scenario, with the delete marker [dm1] under [DeleteMarkers] and
    no such property on it, the merged listing is [dm1], [v2], [v1], whose
    most recent entry is the delete marker, and [undeleteObject] rejects
    with [No delete marker found for the object] after the listing request
    alone: it sends no delete. *)
Theorem undeleteObject_misses_untagged_marker :
  Output.DeleteMarkers untagged_scenario
  = Some [Entry.mk (Some "a.txt") (Some "dm1") (Some 3) None]
  /\ fst (StorjService.listObjectVersionsForKey service0 "a.txt"
            (world0 [Resolved untagged_scenario]))
     = Resolved [Entry.mk (Some "a.txt") (Some "dm1") (Some 3) None;
                 version "a.txt" "v2" 2; version "a.txt" "v1" 1]
  /\ fst (StorjService.undeleteObject service0 "a.txt"
            (world0 [Resolved untagged_scenario; Resolved Output.empty]))
     = Rejected (newError "No delete marker found for the object")
  /\ sent_by (StorjService.undeleteObject service0 "a.txt")
       (world0 [Resolved untagged_scenario; Resolved Output.empty])
     = [ListObjectVersionsCommand (Some "test-bucket") (Some "a.txt")]
  /\ backend (snd (StorjService.undeleteObject service0 "a.txt"
                     (world0 [Resolved untagged_scenario;
                              Resolved Output.empty])))
     = [Resolved Output.empty].
Proof. repeat split. Qed.

(** [undeleteObject] is built from two adapter operations: a failure of
    the backend is written at error level by the operation in which it
    occurs and again by [undeleteObject]. *)
Remark undelete_logs_in_both_layers :
  map msg
    (filter is_error_level
       (logged (snd (StorjService.undeleteObject service0 "a.txt"
                       (world0 [Rejected (mkJsError "Timeout" "no answer")])))))
  = [text "Failed to list object versions for key: a.txt";
     text "Failed to undelete object for key: a.txt"].
Proof. reflexivity. Qed.

(** A body stream that emits an error after a chunk. *)
Example download_stream_error :
  fst (StorjService.downloadFile service0 "a.txt"
         (world0 [Resolved (Output.mk
                              (Some [ev_data []; ev_error (newError "reset")])
                              None None None None None None)]))
  = Rejected (newError "reset").
Proof. reflexivity. Qed.

Lemma undeleteObject_removes_latest_marker_witness :
  exists m,
    In m (StorjService.spread scenario)
    /\ MarkerOf "a.txt" m
    /\ sent_by (StorjService.undeleteObject service0 "a.txt")
         (world0 [Resolved scenario; Resolved Output.empty])
       = [ListObjectVersionsCommand (Some "test-bucket") (Some "a.txt");
          DeleteObjectCommand (Some "test-bucket") "a.txt" (Entry.VersionId m)].
Proof.
  destruct (@undeleteObject_removes_latest_marker Script scripted service0
              "a.txt" (world0 [Resolved scenario; Resolved Output.empty])
              scenario [Resolved Output.empty])
    as [m [Hin [Hm [_ [_ [Hsent _]]]]]].
  - reflexivity.
  - exists (marker "a.txt" "dm1" 3). split.
    + simpl. auto.
    + split; reflexivity.
  - exists m. split; [exact Hin|]. split; [exact Hm|]. exact Hsent.
Defined.

Lemma undeleteObject_no_marker_rejects_witness :
  fst (StorjService.undeleteObject service0 "a.txt"
         (canned_world (Resolved only_versions)))
  = Rejected (newError "No delete marker found for the object")
  /\ sent_by (StorjService.undeleteObject service0 "a.txt")
       (canned_world (Resolved only_versions))
     = [ListObjectVersionsCommand (Some "test-bucket") (Some "a.txt")]
  /\ backend (snd (StorjService.undeleteObject service0 "a.txt"
                     (canned_world (Resolved only_versions))))
     = always (Resolved only_versions).
Proof.
  destruct (@undeleteObject_no_marker_rejects Canned canned service0
              "a.txt" (canned_world (Resolved only_versions)) only_versions
              (always (Resolved only_versions)))
    as [Hres [Hsent [_ [_ Hsame]]]].
  - reflexivity.
  - intros d [<-|[<-|[]]] [Hflag _]; discriminate Hflag.
  - split; [exact Hres|]. split; [exact Hsent|]. apply Hsame. reflexivity.
Defined.

Lemma listObjectVersionsForKey_merged_descending_witness :
  exists l,
    fst (StorjService.listObjectVersionsForKey service0 "a.txt"
           (world0 [Resolved scenario])) = Resolved l
    /\ List.length l = 3%nat
    /\ l = [marker "a.txt" "dm1" 3; version "a.txt" "v2" 2;
            version "a.txt" "v1" 1].
Proof.
  destruct (@listObjectVersionsForKey_merged_descending Script scripted
              service0 "a.txt" (world0 [Resolved scenario]) scenario [])
    as [l [Hres [_ [Hlen _]]]].
  - reflexivity.
  - exists l. split; [exact Hres|]. split; [exact Hlen|].
    vm_compute in Hres. injection Hres as <-. reflexivity.
Defined.

Lemma undeleteObject_deletes_only_markers_of_key_witness :
  exists m,
    In m (StorjService.spread scenario)
    /\ Entry.IsDeleteMarker m = Some true
    /\ Entry.Key m = Some "a.txt"
    /\ Entry.VersionId m = Some "dm1".
Proof.
  destruct (@undeleteObject_deletes_only_markers_of_key Script scripted
              service0 "a.txt"
              (world0 [Resolved scenario; Resolved Output.empty])
              (DeleteObjectCommand (Some "test-bucket") "a.txt" (Some "dm1")))
    as [response [b1 [m [Hsend [Hin [Hflag [Hkey [_ Hc]]]]]]]].
  - right. left. reflexivity.
  - reflexivity.
  - injection Hsend as <- _. injection Hc as Hv.
    exists m. repeat split; auto.
Defined.

Lemma isVersioningEnabled_iff_Enabled_witness :
  exists enabled,
    fst (StorjService.isVersioningEnabled service0
           (world0 [Resolved (Output.mk None None None None None None
                                (Some "Enabled"))]))
    = Resolved enabled
    /\ enabled = true.
Proof.
  destruct (@isVersioningEnabled_iff_Enabled Script scripted service0
              (world0 [Resolved (Output.mk None None None None None None
                                   (Some "Enabled"))])
              (Output.mk None None None None None None (Some "Enabled")) [])
    as [enabled [Hres [Hiff _]]].
  - reflexivity.
  - exists enabled. split; [exact Hres|]. apply Hiff. reflexivity.
Defined.

Lemma constructor_checks_three_settings_witness :
  snd (StorjService.constructor test_config)
  = inr (StorjService.mk
           (StorjService.mkS3 "us-east-1" "https://test-endpoint.com"
              "test-access-key" "test-secret-key" true)
           (Some "test-bucket")).
Proof.
  destruct (constructor_checks_three_settings test_config) as [_ Hok].
  apply (Hok "test-access-key" "test-secret-key" "https://test-endpoint.com");
    first [reflexivity | discriminate].
Defined.

Lemma adapter_operation_fails_fast_witness :
  fst (StorjService.uploadFile service0 [] "a.txt"
         (world0 [Rejected (mkJsError "Timeout" "no answer")]))
  = Rejected (mkJsError "Timeout" "no answer")
  /\ sent_by (StorjService.uploadFile service0 [] "a.txt")
       (world0 [Rejected (mkJsError "Timeout" "no answer")])
     = [PutObjectCommand (Some "test-bucket") "a.txt" []].
Proof.
  destruct (@adapter_operation_fails_fast Script scripted service0 _
              (call_uploadFile [] "a.txt")
              (world0 [Rejected (mkJsError "Timeout" "no answer")])
              (mkJsError "Timeout" "no answer"))
    as [Hres [Hsent _]].
  - reflexivity.
  - split; [exact Hres | exact Hsent].
Defined.

Lemma deleteObjectWithMarker_returns_marker_version_witness :
  fst (BucketVersioningController.deleteObjectWithMarker service0 "a.txt"
         (world0 [Resolved (Output.mk None None None None None (Some "dm7")
                              None)]))
  = Resolved (BucketVersioningController.mkDelete (Some "dm7")).
Proof.
  destruct (@deleteObjectWithMarker_returns_marker_version Script scripted
              service0 "a.txt"
              (world0 [Resolved (Output.mk None None None None None
                                   (Some "dm7") None)])
              (Output.mk None None None None None (Some "dm7") None) [])
    as [Hres _].
  - reflexivity.
  - exact Hres.
Defined.

Lemma listObjectVersions_only_versions_witness :
  fst (BucketVersioningController.listObjectVersions service0
         (world0 [Resolved scenario]))
  = Resolved [version "a.txt" "v1" 1; version "a.txt" "v2" 2].
Proof.
  destruct (@listObjectVersions_only_versions Script scripted service0
              (world0 [Resolved scenario]) scenario [])
    as [Hres _].
  - reflexivity.
  - exact Hres.
Defined.

Lemma listings_absent_arrays_empty_witness :
  fst (StorjService.listObjects service0 (world0 [Resolved Output.empty]))
  = Resolved []
  /\ fst (StorjService.listObjectVersions service0
            (world0 [Resolved Output.empty])) = Resolved []
  /\ fst (StorjService.listObjectVersionsForKey service0 "a.txt"
            (world0 [Resolved Output.empty])) = Resolved [].
Proof.
  destruct (@listings_absent_arrays_empty Script scripted service0 "a.txt"
              (world0 [Resolved Output.empty]) Output.empty)
    as [H1 [H2 H3]]; try reflexivity.
  split; [apply (H1 []); reflexivity|].
  split; [apply (H2 []); reflexivity | apply (H3 []); reflexivity].
Defined.

(* ================================================================== *)
(** * Every adapter operation, whatever the backend answers              *)
(* ================================================================== *)

(** Evaluate an adapter operation by cases: the operation, how the request
    settles, and how the body stream settles when the operation reads it. *)
Ltac by_cases_of c w :=
  destruct c; cbn [command_of reads_body] in *;
  unfold_methods; unfold_async;
  destruct (send _ (backend w)) as [[?response|?e|] ?b1] eqn:?Hsend;
  unfold_async;
  try (destruct (StorjService.streamToBuffer _) as [?buf|?e|] eqn:?Hbuf;
       unfold_async).

Ltac new_lines := rewrite <- ?app_assoc, ?skipn_exact; cbn.

Section EveryOutcome.
Context {B : Type} `{S3Client B}.
Variable this : StorjService.t.

(** An adapter operation hands exactly one command to the client, its own,
    whether the request resolves, is rejected or is never answered, and
    whether the body stream ends, fails or stalls; the backend is left as
    that one request leaves it. *)
Theorem adapter_operation_sends_once
    (A : Type) (c : AdapterCall A) (w : World B) :
  sent_by (perform this c) w = [command_of this c]
  /\ backend (snd (perform this c w))
     = snd (send (command_of this c) (backend w)).
Proof.
  by_cases_of c w; (split; [apply skipn_exact | reflexivity]).
Qed.

(** An adapter operation writes at error level exactly when it rejects:
    one line, carrying the error it rejects with; when it resolves or stays
    pending it writes no line at error level. *)
Theorem adapter_operation_error_line_iff_rejected
    (A : Type) (c : AdapterCall A) (w : World B) :
  match fst (perform this c w) with
  | Rejected e =>
      exists s,
        filter is_error_level (logged_by (perform this c) w)
        = [mkLog ERROR (text s) (Some e)]
  | _ => filter is_error_level (logged_by (perform this c) w) = []
  end.
Proof.
  by_cases_of c w; new_lines; first [reflexivity | eexists; reflexivity].
Qed.

(** An adapter operation that resolves has written at least two lines,
    all at the plain level and without a cause; one that stays pending has
    written only the line that announces it. *)
Theorem adapter_operation_logs_around_the_call
    (A : Type) (c : AdapterCall A) (w : World B) :
  match fst (perform this c w) with
  | Resolved _ =>
      (2 <= List.length (logged_by (perform this c) w))%nat
      /\ Forall (fun l => level l = LOG /\ cause l = None)
           (logged_by (perform this c) w)
  | Pending =>
      exists s, logged_by (perform this c) w = [mkLog LOG (text s) None]
  | Rejected _ => True
  end.
Proof.
  by_cases_of c w; new_lines;
    first [ exact I
          | eexists; reflexivity
          | split; [lia | repeat constructor] ].
Qed.

(** An adapter operation only adds to the record of the commands sent and
    to the log: what was there before stays, in place. *)
Theorem adapter_operation_keeps_history
    (A : Type) (c : AdapterCall A) (w : World B) :
  requests (snd (perform this c w))
  = (requests w ++ sent_by (perform this c) w)%list
  /\ logged (snd (perform this c w))
     = (logged w ++ logged_by (perform this c) w)%list.
Proof.
  by_cases_of c w;
    (split; [now rewrite skipn_exact
            | rewrite <- ?app_assoc; now rewrite skipn_exact]).
Qed.

(** A response without a body makes every operation that reads the body
    reject with the [TypeError] of reading [on] of [undefined]. *)
Theorem body_reader_rejects_missing_body
    (A : Type) (c : AdapterCall A) (w : World B)
    (response : Output.t) (b1 : B) :
  reads_body c = true ->
  send (command_of this c) (backend w) = (Resolved response, b1) ->
  Output.Body response = None ->
  fst (perform this c w) = Rejected (undefinedRead "on").
Proof.
  intros Hrb Hsend Hbody.
  destruct c; try discriminate Hrb; cbn [command_of] in Hsend;
    run_with Hsend; rewrite Hbody; reflexivity.
Qed.
End EveryOutcome.

(* ================================================================== *)
(** * Body streams and downloads                                         *)
(* ================================================================== *)

Lemma streamToBuffer_ends (chunks : list Buffer) (rest : Stream) :
  StorjService.streamToBuffer (Some (map ev_data chunks ++ ev_end :: rest)%list)
  = Resolved (List.concat chunks).
Proof. unfold StorjService.streamToBuffer. now rewrite drain_data. Qed.

(** [streamToBuffer] on a stream that emits chunks and then ends resolves
    with the chunks concatenated in the order received; when the stream
    emits an error instead it rejects with that error; whatever the stream
    emits after the end or the error changes nothing; a stream that only
    emits chunks leaves the promise pending. *)
Theorem streamToBuffer_settles
    (chunks : list Buffer) (rest : Stream) (e : JsError) :
  StorjService.streamToBuffer (Some (map ev_data chunks ++ ev_end :: rest)%list)
  = Resolved (List.concat chunks)
  /\ StorjService.streamToBuffer
       (Some (map ev_data chunks ++ ev_error e :: rest)%list)
     = Rejected e
  /\ StorjService.streamToBuffer (Some (map ev_data chunks)) = Pending.
Proof.
  unfold StorjService.streamToBuffer. repeat split.
  - now rewrite drain_data.
  - now rewrite drain_data.
  - rewrite <- (app_nil_r (map ev_data chunks)). now rewrite drain_data.
Qed.

Section Downloads.
Context {B : Type} `{S3Client B}.
Variable this : StorjService.t.

(** When the backend answers [GetObject] with a body that emits chunks and
    ends, the two operations that read the current object, or the two that
    read a version, resolve with the bytes of the chunks in order; the
    operations with metadata return the [Metadata] of the response beside
    them, as it is. *)
Theorem download_returns_the_body
    (key : string) (versionId : option string) (w : World B)
    (response : Output.t) (chunks : list Buffer) (rest : Stream) (b1 : B) :
  send (GetObjectCommand (StorjService.bucket this) key versionId) (backend w)
  = (Resolved response, b1) ->
  Output.Body response = Some (map ev_data chunks ++ ev_end :: rest)%list ->
  match versionId with
  | None =>
      fst (StorjService.downloadFile this key w)
      = Resolved (List.concat chunks)
      /\ fst (StorjService.getCurrentObjectVersion this key w)
         = Resolved (List.concat chunks, Output.Metadata response)
  | Some v =>
      fst (StorjService.getObjectVersion this key v w)
      = Resolved (List.concat chunks)
      /\ fst (StorjService.getObjectVersionWithMetadata this key v w)
         = Resolved (List.concat chunks, Output.Metadata response)
  end.
Proof.
  intros Hsend Hbody.
  pose proof (streamToBuffer_ends chunks rest) as Hend.
  destruct versionId as [v|]; split; run_with Hsend;
    rewrite Hbody, Hend; reflexivity.
Qed.
End Downloads.

(* ================================================================== *)
(** * Headers                                                            *)
(* ================================================================== *)

Lemma obj_get_set (k k' v : string) (o : JsObject) :
  obj_get k (obj_set k' v o)
  = if String.eqb k' k then Some v else obj_get k o.
Proof.
  induction o as [|[k0 v0] o IH]; simpl.
  - reflexivity.
  - destruct (String.eqb_spec k0 k') as [->|Hne]; simpl.
    + destruct (String.eqb k' k); reflexivity.
    + destruct (String.eqb_spec k0 k) as [->|Hne'].
      * destruct (String.eqb_spec k' k) as [->|_]; [congruence|reflexivity].
      * exact IH.
Qed.

Lemma obj_get_spread_other (k : string) (src o : JsObject) :
  ~ In k (map fst src) ->
  obj_get k (obj_spread o (Some src)) = obj_get k o.
Proof.
  unfold obj_spread. cbn [or_else]. revert o.
  induction src as [|[k0 v0] src IH]; intros o Hnot; simpl.
  - reflexivity.
  - rewrite IH by (intros Hin; apply Hnot; now right).
    rewrite obj_get_set.
    destruct (String.eqb_spec k0 k) as [->|_]; [|reflexivity].
    exfalso. apply Hnot. now left.
Qed.

Lemma obj_get_spread_in (k v : string) (src o : JsObject) :
  NoDup (map fst src) -> In (k, v) src ->
  obj_get k (obj_spread o (Some src)) = Some v.
Proof.
  revert o. induction src as [|[k0 v0] src IH]; intros o Hnd Hin.
  - contradiction.
  - inversion Hnd as [|? ? Hnotin Hnd']; subst.
    destruct Hin as [[= -> ->]|Hin].
    + change (obj_spread o (Some ((k, v) :: src)))
        with (obj_spread (obj_set k v o) (Some src)).
      rewrite obj_get_spread_other by exact Hnotin.
      rewrite obj_get_set, String.eqb_refl. reflexivity.
    + change (obj_spread o (Some ((k0, v0) :: src)))
        with (obj_spread (obj_set k0 v0 o) (Some src)).
      now apply IH.
Qed.

Section DownloadRoutes.
Context {B : Type} `{S3Client B}.
Variable this : StorjService.t.

(** Each download route answers for its adapter call: when the call is
    rejected the route rejects with the same error and makes no call on
    [res]; when the call stays pending so does the route, with no call on
    [res]; when the call resolves the route resolves after exactly two
    calls, [res.set] and then [res.send] of the buffer the call returned.
    The calls made on [res] before are kept, and the world is the one the
    adapter call leaves. *)
Theorem download_route_answers_once_or_not_at_all
    (key versionId : string) (res : Res) (w : World B) :
  answers_for (StorjService.getObjectVersion this key versionId w)
    (fun buffer => buffer) res
    (handle this (route_downloadObjectVersion key versionId) res w)
  /\ answers_for (StorjService.getCurrentObjectVersion this key w)
       fst res
       (handle this (route_getCurrentObjectVersion key) res w)
  /\ answers_for (StorjService.downloadFile this key w)
       (fun buffer => buffer) res
       (handle this (route_downloadLatestObject key) res w)
  /\ answers_for (StorjService.getObjectVersionWithMetadata this key
                    versionId w)
       fst res
       (handle this (route_getObjectVersionWithMetadata key versionId) res w).
Proof.
  repeat split; cbn [handle];
    unfold BucketVersioningController.downloadObjectVersion,
      BucketVersioningController.getCurrentObjectVersion,
      BucketVersioningController.downloadLatestObject,
      BucketVersioningController.getObjectVersionWithMetadata,
      BucketVersioningController.respond,
      BucketVersioningService.getObjectVersion,
      BucketVersioningService.getCurrentObjectVersion,
      BucketVersioningService.downloadFile,
      BucketVersioningService.getObjectVersionWithMetadata, answers_for;
    match goal with
    | |- context [match ?m with (_, _) => _ end] =>
        destruct m as [[x|e|] w']
    end; eauto.
Qed.

(** The headers of a download route, relative to the two default
    headers. *)
Lemma download_route_headers_spread
    (r : DownloadRoute) (res : Res) (w : World B)
    (response : Output.t) (chunks : list Buffer) (rest : Stream) (b1 : B) :
  send (route_command this r) (backend w) = (Resolved response, b1) ->
  Output.Body response = Some (map ev_data chunks ++ ev_end :: rest)%list ->
  NoDup (map fst (or_else (Output.Metadata response) [])) ->
  exists headers,
    fst (handle this r res w)
    = (Resolved tt,
       (res ++ [res_set headers; res_send (List.concat chunks)])%list)
    /\ (forall k,
           spreads_metadata r = false
           \/ ~ In k (map fst (or_else (Output.Metadata response) [])) ->
           obj_get k headers
           = obj_get k
               (BucketVersioningController.attachment (route_key r)))
    /\ (forall k v,
           spreads_metadata r = true ->
           In (k, v) (or_else (Output.Metadata response) []) ->
           obj_get k headers = Some v).
Proof.
  intros Hsend Hbody Hnd.
  pose proof (streamToBuffer_ends chunks rest) as Hend.
  destruct r; cbn [handle route_command route_key spreads_metadata] in *;
    unfold BucketVersioningController.downloadObjectVersion,
      BucketVersioningController.getCurrentObjectVersion,
      BucketVersioningController.downloadLatestObject,
      BucketVersioningController.getObjectVersionWithMetadata,
      BucketVersioningController.respond,
      BucketVersioningService.getObjectVersion,
      BucketVersioningService.getCurrentObjectVersion,
      BucketVersioningService.downloadFile,
      BucketVersioningService.getObjectVersionWithMetadata;
    run_with Hsend; rewrite Hbody, Hend; unfold_async;
    eexists; (split; [reflexivity|]); split.
  all: try (intros k [Hf|Hnot]; [reflexivity | reflexivity]).
  all: try (intros k v Hf; discriminate Hf).
  all: try (intros k [Hf|Hnot]; [discriminate Hf|];
            destruct (Output.Metadata response) as [md|];
            [now apply obj_get_spread_other | reflexivity]).
  all: intros k v _ Hin;
    destruct (Output.Metadata response) as [md|]; [|contradiction];
    now apply obj_get_spread_in.
Qed.

(** When the backend answers the request of a download route with a body
    that emits chunks and ends, the route hands [res.send] the bytes of the
    chunks, after handing [res.set] headers in which: a property that the
    metadata does not have, or any property when the route does not spread
    metadata, has the value of the two default headers (content type
    [application/octet-stream], content disposition [attachment] with the
    key as file name); and, when the route spreads metadata, every property
    of the metadata has the value the metadata gives it, also when it is
    one of the two default headers.  In particular the content type is
    [application/octet-stream] and the content disposition is [attachment]
    with the key as file name, unless the route spreads metadata that has
    that property. *)
Theorem download_route_headers
    (r : DownloadRoute) (res : Res) (w : World B)
    (response : Output.t) (chunks : list Buffer) (rest : Stream) (b1 : B) :
  send (route_command this r) (backend w) = (Resolved response, b1) ->
  Output.Body response = Some (map ev_data chunks ++ ev_end :: rest)%list ->
  NoDup (map fst (or_else (Output.Metadata response) [])) ->
  exists headers,
    fst (handle this r res w)
    = (Resolved tt,
       (res ++ [res_set headers; res_send (List.concat chunks)])%list)
    /\ (forall k,
           spreads_metadata r = false
           \/ ~ In k (map fst (or_else (Output.Metadata response) [])) ->
           obj_get k headers
           = obj_get k
               (BucketVersioningController.attachment (route_key r)))
    /\ (forall k v,
           spreads_metadata r = true ->
           In (k, v) (or_else (Output.Metadata response) []) ->
           obj_get k headers = Some v)
    /\ (spreads_metadata r = false
        \/ ~ In "Content-Type"
               (map fst (or_else (Output.Metadata response) [])) ->
        obj_get "Content-Type" headers = Some "application/octet-stream")
    /\ (spreads_metadata r = false
        \/ ~ In "Content-Disposition"
               (map fst (or_else (Output.Metadata response) [])) ->
        obj_get "Content-Disposition" headers
        = Some ("attachment; filename=" ++ dquote ++ route_key r ++ dquote)).
Proof.
  intros Hsend Hbody Hnd.
  destruct (download_route_headers_spread r res w chunks rest Hsend Hbody Hnd)
    as [headers [Hres [Hdefault Hmeta]]].
  exists headers. split; [exact Hres|]. split; [exact Hdefault|].
  split; [exact Hmeta|]. split; intros Hk; rewrite (Hdefault _ Hk);
    reflexivity.
Qed.
End DownloadRoutes.

(* ================================================================== *)
(** * Ties, and how undelete is composed                                 *)
(* ================================================================== *)

Section Composition.
Context {B : Type} `{S3Client B}.
Variable this : StorjService.t.

(** Entries with the same last-modified time (zero when missing) come out
    of the per-key listing in the order of the response: those of
    [Versions] in their order, then those of [DeleteMarkers] in theirs. *)
Theorem listing_keeps_response_order_on_ties
    (key : string) (w : World B) (response : Output.t) (b1 : B) (t : Z) :
  send (ListObjectVersionsCommand (StorjService.bucket this) (Some key))
    (backend w) = (Resolved response, b1) ->
  exists l,
    fst (StorjService.listObjectVersionsForKey this key w) = Resolved l
    /\ filter (fun e => timeOrZero e =? t) l
       = (filter (fun e => timeOrZero e =? t)
            (or_else (Output.Versions response) [])
          ++ filter (fun e => timeOrZero e =? t)
               (or_else (Output.DeleteMarkers response) []))%list.
Proof.
  intros Hsend.
  rewrite (listObjectVersionsForKey_resolved this key w Hsend).
  eexists. split; [reflexivity|].
  rewrite (@js_sort_stable _ StorjService.byDateOrZeroDesc timeOrZero
             byDateOrZeroDesc_key).
  apply filter_app.
Qed.

Lemma listObjectVersionsForKey_resolved_inv key (w w1 : World B) l :
  StorjService.listObjectVersionsForKey this key w = (Resolved l, w1) ->
  exists response,
    send (ListObjectVersionsCommand (StorjService.bucket this) (Some key))
      (backend w) = (Resolved response, backend w1)
    /\ l = js_sort StorjService.byDateOrZeroDesc
             (StorjService.spread response)
    /\ requests w1
       = (requests w
          ++ [ListObjectVersionsCommand (StorjService.bucket this)
                (Some key)])%list.
Proof.
  destruct (send (ListObjectVersionsCommand (StorjService.bucket this)
                    (Some key)) (backend w))
    as [[response|e|] b1] eqn:Hsend.
  - rewrite (listObjectVersionsForKey_resolved this key w Hsend).
    intros [= <- <-]. exists response. repeat split.
  - run_with Hsend. discriminate.
  - run_with Hsend. discriminate.
Qed.

(** [undeleteObject] is the per-key listing followed by
    [deleteObjectVersion] of the first entry of the listing that passes
    the filter: it settles as that call does in the world the listing
    leaves, and sends the same commands and leaves the backend in the same
    state as the two calls made one after the other. *)
Theorem undeleteObject_is_list_then_delete_first_marker
    (key : string) (w w1 : World B) (l : list Entry.t)
    (m : Entry.t) (rest : list Entry.t) :
  StorjService.listObjectVersionsForKey this key w = (Resolved l, w1) ->
  filter (StorjService.isMarkerOf key) l = m :: rest ->
  let r := StorjService.undeleteObject this key w in
  let d := StorjService.deleteObjectVersion this key (Entry.VersionId m) w1 in
  fst r = fst d
  /\ requests (snd r) = requests (snd d)
  /\ backend (snd r) = backend (snd d).
Proof.
  intros Hlist Hf.
  destruct (listObjectVersionsForKey_resolved_inv key w Hlist)
    as [response [Hsend [-> Hreq]]].
  pose proof (undeleteObject_run this key w) as Hrun.
  cbv beta zeta in Hrun. rewrite Hsend, Hf in Hrun.
  destruct Hrun as [Hres [Hreqs Hback]].
  cbv zeta. rewrite Hres, Hreqs, Hback.
  unfold StorjService.deleteObjectVersion. unfold_async. rewrite Hreq.
  destruct (send _ (backend w1)) as [[result|e|] b2]; unfold_async;
    rewrite <- app_assoc; repeat split.
Qed.

(** Whatever the backend answers, [undeleteObject] sends the listing
    request with the key as prefix and then at most one more command, a
    delete of the key itself; it sends nothing else. *)
Theorem undeleteObject_request_shape (key : string) (w : World B) :
  let list_for :=
    ListObjectVersionsCommand (StorjService.bucket this) (Some key) in
  sent_by (StorjService.undeleteObject this key) w = [list_for]
  \/ exists versionId,
       sent_by (StorjService.undeleteObject this key) w
       = [list_for;
          DeleteObjectCommand (StorjService.bucket this) key versionId].
Proof.
  pose proof (undeleteObject_run this key w) as Hrun.
  cbv beta zeta in *. unfold sent_by.
  destruct (send _ (backend w)) as [[response|e|] b1].
  - destruct (filter _ _) as [|m rest];
      destruct Hrun as [_ [-> _]]; rewrite skipn_exact; eauto.
  - destruct Hrun as [_ [-> _]]. rewrite skipn_exact. now left.
  - destruct Hrun as [_ [-> _]]. rewrite skipn_exact. now left.
Qed.

(** When the marker that [undeleteObject] selects has no version
    identifier, the delete it sends is the unversioned delete, the very
    command of [deleteObjectWithMarker]. *)
Theorem undeleteObject_unversioned_when_marker_has_no_version
    (key : string) (w : World B) (response : Output.t) (b1 : B)
    (m : Entry.t) (rest : list Entry.t) :
  send (ListObjectVersionsCommand (StorjService.bucket this) (Some key))
    (backend w) = (Resolved response, b1) ->
  filter (StorjService.isMarkerOf key)
    (js_sort StorjService.byDateOrZeroDesc (StorjService.spread response))
  = m :: rest ->
  Entry.VersionId m = None ->
  sent_by (StorjService.undeleteObject this key) w
  = [ListObjectVersionsCommand (StorjService.bucket this) (Some key);
     command_of this (call_deleteObjectWithMarker key)].
Proof.
  intros Hsend Hf Hv.
  pose proof (undeleteObject_run this key w) as Hrun.
  cbv beta zeta in Hrun. rewrite Hsend, Hf in Hrun.
  destruct Hrun as [_ [Hreq _]].
  unfold sent_by. rewrite Hreq, skipn_exact, Hv. reflexivity.
Qed.
End Composition.

(* ================================================================== *)
(** * What undelete writes when it fails                                 *)
(* ================================================================== *)

Section UndeleteLog.
Context {B : Type} `{S3Client B}.
Variable this : StorjService.t.

(** When the listing request is rejected, [undeleteObject] rejects with
    the same error after that one command, and the error is written at
    error level twice: by the listing and by [undeleteObject]. *)
Theorem undeleteObject_listing_failure_logged_twice
    (key : string) (w : World B) (e : JsError) (b1 : B) :
  send (ListObjectVersionsCommand (StorjService.bucket this) (Some key))
    (backend w) = (Rejected e, b1) ->
  fst (StorjService.undeleteObject this key w) = Rejected e
  /\ sent_by (StorjService.undeleteObject this key) w
     = [ListObjectVersionsCommand (StorjService.bucket this) (Some key)]
  /\ filter is_error_level
       (logged_by (StorjService.undeleteObject this key) w)
     = [mkLog ERROR
          (text ("Failed to list object versions for key: " ++ key)) (Some e);
        mkLog ERROR
          (text ("Failed to undelete object for key: " ++ key)) (Some e)].
Proof.
  intros Hsend. unfold sent_by, logged_by, StorjService.undeleteObject.
  run_with Hsend.
  split; [reflexivity|]. split; [apply skipn_exact|].
  new_lines. reflexivity.
Qed.

(** When the delete of the selected marker is rejected,
    [undeleteObject] rejects with the same error, and the error is written
    at error level twice: by [deleteObjectVersion] and by
    [undeleteObject]. *)
Theorem undeleteObject_delete_failure_logged_twice
    (key : string) (w : World B) (response : Output.t) (b1 b2 : B)
    (m : Entry.t) (rest : list Entry.t) (e : JsError) :
  send (ListObjectVersionsCommand (StorjService.bucket this) (Some key))
    (backend w) = (Resolved response, b1) ->
  filter (StorjService.isMarkerOf key)
    (js_sort StorjService.byDateOrZeroDesc (StorjService.spread response))
  = m :: rest ->
  send (DeleteObjectCommand (StorjService.bucket this) key
          (Entry.VersionId m)) b1 = (Rejected e, b2) ->
  fst (StorjService.undeleteObject this key w) = Rejected e
  /\ filter is_error_level
       (logged_by (StorjService.undeleteObject this key) w)
     = [mkLog ERROR
          (text ("Failed to delete object version for key: " ++ key
                 ++ ", versionId: " ++ js_str (Entry.VersionId m))) (Some e);
        mkLog ERROR
          (text ("Failed to undelete object for key: " ++ key)) (Some e)].
Proof.
  intros Hsend Hf Hdel. unfold logged_by, StorjService.undeleteObject.
  unfold_async.
  erewrite listObjectVersionsForKey_resolved by exact Hsend.
  unfold_async. rewrite resort_markers, Hf. cbn [List.length Nat.eqb].
  unfold_async. unfold StorjService.deleteObjectVersion. unfold_async.
  rewrite Hdel. unfold_async.
  split; [reflexivity|]. new_lines. reflexivity.
Qed.

(** When the listing holds no marker of the key, the lines that
    [undeleteObject] writes above the plain level are a warning and then
    one error-level line, which carries the error it rejects with. *)
Theorem undeleteObject_no_marker_warns_then_logs_error
    (key : string) (w : World B) (response : Output.t) (b1 : B) :
  send (ListObjectVersionsCommand (StorjService.bucket this) (Some key))
    (backend w) = (Resolved response, b1) ->
  (forall d, In d (StorjService.spread response) -> ~ MarkerOf key d) ->
  filter is_alert (logged_by (StorjService.undeleteObject this key) w)
  = [mkLog WARN (text ("No delete marker found for key: " ++ key)) None;
     mkLog ERROR (text ("Failed to undelete object for key: " ++ key))
       (Some (newError "No delete marker found for the object"))].
Proof.
  intros Hsend Hnone.
  assert (Hf : filter (StorjService.isMarkerOf key)
                 (js_sort StorjService.byDateOrZeroDesc
                    (StorjService.spread response)) = []).
  { destruct (filter _ _) as [|m rest] eqn:Hf; [reflexivity|exfalso].
    destruct (first_marker_latest _ (merged_sorted _) Hf) as [Hin [Hm _]].
    apply js_sort_In in Hin. exact (Hnone m Hin Hm). }
  unfold logged_by, StorjService.undeleteObject. unfold_async.
  erewrite listObjectVersionsForKey_resolved by exact Hsend.
  unfold_async. rewrite resort_markers, Hf. cbn [List.length Nat.eqb].
  unfold_async. new_lines. reflexivity.
Qed.
End UndeleteLog.

Section UndeleteAlerts.
Context {B : Type} `{S3Client B}.
Variable this : StorjService.t.

(** Whatever the backend answers, [undeleteObject] writes above the plain
    level exactly when it rejects: then two lines, the second its own
    error-level line [Failed to undelete object], carrying the error it
    rejects with; when it resolves or stays pending it writes none. *)
Theorem undeleteObject_alerts_iff_rejected (key : string) (w : World B) :
  match fst (StorjService.undeleteObject this key w) with
  | Rejected e =>
      exists first,
        filter is_alert (logged_by (StorjService.undeleteObject this key) w)
        = [first;
           mkLog ERROR (text ("Failed to undelete object for key: " ++ key))
             (Some e)]
  | _ =>
      filter is_alert (logged_by (StorjService.undeleteObject this key) w)
      = []
  end.
Proof.
  unfold logged_by, StorjService.undeleteObject. unfold_async.
  unfold StorjService.listObjectVersionsForKey. unfold_async.
  destruct (send _ (backend w)) as [[response|e|] b1]; unfold_async.
  - rewrite resort_markers.
    destruct (filter _ _) as [|m rest]; cbn [List.length Nat.eqb];
      unfold_async.
    + new_lines. eexists. reflexivity.
    + unfold StorjService.deleteObjectVersion. unfold_async.
      destruct (send _ b1) as [[result|e|] b2]; unfold_async; new_lines;
        first [reflexivity | eexists; reflexivity].
  - new_lines. eexists. reflexivity.
  - new_lines. reflexivity.
Qed.
End UndeleteAlerts.

(* ================================================================== *)
(** * From the configuration to the commands                             *)
(* ================================================================== *)

(** An adapter that the constructor returns is built from the settings as
    they are: the client has the configured endpoint and keys, and every
    command of every adapter operation carries the configured bucket name,
    undefined when it is not set. *)
Theorem commands_carry_configured_bucket
    (configService : StorjService.ConfigService) (this : StorjService.t)
    (A : Type) (c : AdapterCall A) :
  snd (StorjService.constructor configService) = inr this ->
  command_bucket (command_of this c) = configService "STORJ_BUCKET"
  /\ Some (StorjService.endpoint (StorjService.s3Client this))
     = configService "STORJ_ENDPOINT"
  /\ Some (StorjService.accessKeyId (StorjService.s3Client this))
     = configService "STORJ_ACCESS_KEY"
  /\ Some (StorjService.secretAccessKey (StorjService.s3Client this))
     = configService "STORJ_SECRET_KEY".
Proof.
  unfold StorjService.constructor.
  destruct (configService "STORJ_ACCESS_KEY") as [a|];
    destruct (configService "STORJ_SECRET_KEY") as [s|];
    destruct (configService "STORJ_ENDPOINT") as [e|];
    cbn [StorjService.not_ orb];
    repeat match goal with
           | |- context [String.eqb ?x ""] => destruct (String.eqb x "")
           end;
    cbn [orb snd]; try discriminate.
  intros [= <-]. destruct c; repeat split.
Qed.

(* ================================================================== *)
(** * Instances of the properties above                                  *)
(* ================================================================== *)

Lemma body_reader_rejects_missing_body_witness :
  fst (StorjService.downloadFile service0 "a.txt"
         (world0 [Resolved Output.empty]))
  = Rejected (undefinedRead "on").
Proof.
  apply (@body_reader_rejects_missing_body Script scripted service0 _
           (call_downloadFile "a.txt") (world0 [Resolved Output.empty])
           Output.empty []); reflexivity.
Defined.

Lemma download_returns_the_body_witness :
  fst (StorjService.downloadFile service0 "a.txt"
         (world0 [Resolved object_response]))
  = Resolved [Byte.x01; Byte.x02; Byte.x03]
  /\ fst (StorjService.getCurrentObjectVersion service0 "a.txt"
            (world0 [Resolved object_response]))
     = Resolved ([Byte.x01; Byte.x02; Byte.x03],
                 Some [("Content-Type", "text/plain"); ("owner", "alice")]).
Proof.
  apply (@download_returns_the_body Script scripted service0 "a.txt" None
           (world0 [Resolved object_response]) object_response
           [chunk1; chunk2] [] []); reflexivity.
Defined.

Lemma download_route_headers_witness :
  exists headers,
    fst (handle service0 (route_getCurrentObjectVersion "a.txt") []
           (world0 [Resolved object_response]))
    = (Resolved tt, [res_set headers; res_send [Byte.x01; Byte.x02; Byte.x03]])
    /\ obj_get "Content-Type" headers = Some "text/plain"
    /\ obj_get "owner" headers = Some "alice"
    /\ obj_get "Content-Disposition" headers
       = Some ("attachment; filename=" ++ dquote ++ "a.txt" ++ dquote).
Proof.
  destruct (@download_route_headers Script scripted service0
              (route_getCurrentObjectVersion "a.txt") []
              (world0 [Resolved object_response]) object_response
              [chunk1; chunk2] [] [])
    as [headers [Hres [Hdefault [Hmeta _]]]].
  - reflexivity.
  - reflexivity.
  - repeat constructor; simpl; intuition discriminate.
  - exists headers. split; [exact Hres|].
    split; [apply Hmeta; [reflexivity | simpl; auto]|].
    split; [apply Hmeta; [reflexivity | simpl; auto]|].
    rewrite Hdefault; [reflexivity|].
    right. simpl. intuition discriminate.
Defined.

Lemma listing_keeps_response_order_on_ties_witness :
  exists l,
    fst (StorjService.listObjectVersionsForKey service0 "a.txt"
           (world0 [Resolved tied_listing])) = Resolved l
    /\ filter (fun e => timeOrZero e =? 5) l
       = [version "a.txt" "v1" 5; marker "a.txt" "dmA" 5;
          marker "a.txt" "dmB" 5].
Proof.
  apply (@listing_keeps_response_order_on_ties Script scripted service0
           "a.txt" (world0 [Resolved tied_listing]) tied_listing [] 5).
  reflexivity.
Defined.

Lemma undeleteObject_is_list_then_delete_first_marker_witness :
  fst (StorjService.undeleteObject service0 "a.txt"
         (world0 [Resolved scenario; Resolved Output.empty]))
  = fst (StorjService.deleteObjectVersion service0 "a.txt" (Some "dm1")
           (snd (StorjService.listObjectVersionsForKey service0 "a.txt"
                   (world0 [Resolved scenario; Resolved Output.empty])))).
Proof.
  destruct (@undeleteObject_is_list_then_delete_first_marker Script scripted
              service0 "a.txt"
              (world0 [Resolved scenario; Resolved Output.empty])
              (snd (StorjService.listObjectVersionsForKey service0 "a.txt"
                      (world0 [Resolved scenario; Resolved Output.empty])))
              [marker "a.txt" "dm1" 3; version "a.txt" "v2" 2;
               version "a.txt" "v1" 1]
              (marker "a.txt" "dm1" 3) [])
    as [Hres _].
  - reflexivity.
  - reflexivity.
  - exact Hres.
Defined.

Lemma undeleteObject_unversioned_when_marker_has_no_version_witness :
  sent_by (StorjService.undeleteObject service0 "a.txt")
    (world0 [Resolved anonymous_marker_listing; Resolved Output.empty])
  = [ListObjectVersionsCommand (Some "test-bucket") (Some "a.txt");
     DeleteObjectCommand (Some "test-bucket") "a.txt" None].
Proof.
  apply (@undeleteObject_unversioned_when_marker_has_no_version Script
           scripted service0 "a.txt"
           (world0 [Resolved anonymous_marker_listing; Resolved Output.empty])
           anonymous_marker_listing [Resolved Output.empty]
           (Entry.mk (Some "a.txt") None (Some 3) (Some true)) []);
    reflexivity.
Defined.

Lemma undeleteObject_listing_failure_logged_twice_witness :
  fst (StorjService.undeleteObject service0 "a.txt"
         (world0 [Rejected (mkJsError "Timeout" "no answer")]))
  = Rejected (mkJsError "Timeout" "no answer")
  /\ List.length
       (filter is_error_level
          (logged_by (StorjService.undeleteObject service0 "a.txt")
             (world0 [Rejected (mkJsError "Timeout" "no answer")])))
     = 2%nat.
Proof.
  destruct (@undeleteObject_listing_failure_logged_twice Script scripted
              service0 "a.txt"
              (world0 [Rejected (mkJsError "Timeout" "no answer")])
              (mkJsError "Timeout" "no answer") [])
    as [Hres [_ Hlog]].
  - reflexivity.
  - split; [exact Hres|]. rewrite Hlog. reflexivity.
Defined.

Lemma undeleteObject_delete_failure_logged_twice_witness :
  fst (StorjService.undeleteObject service0 "a.txt"
         (world0 [Resolved scenario;
                  Rejected (mkJsError "AccessDenied" "no")]))
  = Rejected (mkJsError "AccessDenied" "no")
  /\ List.length
       (filter is_error_level
          (logged_by (StorjService.undeleteObject service0 "a.txt")
             (world0 [Resolved scenario;
                      Rejected (mkJsError "AccessDenied" "no")])))
     = 2%nat.
Proof.
  destruct (@undeleteObject_delete_failure_logged_twice Script scripted
              service0 "a.txt"
              (world0 [Resolved scenario;
                       Rejected (mkJsError "AccessDenied" "no")])
              scenario [Rejected (mkJsError "AccessDenied" "no")] []
              (marker "a.txt" "dm1" 3) []
              (mkJsError "AccessDenied" "no"))
    as [Hres Hlog].
  - reflexivity.
  - reflexivity.
  - reflexivity.
  - split; [exact Hres|]. rewrite Hlog. reflexivity.
Defined.

Lemma undeleteObject_no_marker_warns_then_logs_error_witness :
  map level
    (filter is_alert
       (logged_by (StorjService.undeleteObject service0 "a.txt")
          (world0 [Resolved only_versions])))
  = [WARN; ERROR].
Proof.
  rewrite (@undeleteObject_no_marker_warns_then_logs_error Script scripted
             service0 "a.txt" (world0 [Resolved only_versions])
             only_versions []).
  - reflexivity.
  - reflexivity.
  - intros d [<-|[<-|[]]] [Hflag _]; discriminate Hflag.
Defined.

Lemma commands_carry_configured_bucket_witness :
  command_bucket
    (command_of
       (StorjService.mk
          (StorjService.mkS3 "us-east-1" "https://test-endpoint.com"
             "test-access-key" "test-secret-key" true)
          None)
       call_listObjects)
  = None.
Proof.
  destruct (@commands_carry_configured_bucket config_without_bucket
              (StorjService.mk
                 (StorjService.mkS3 "us-east-1" "https://test-endpoint.com"
                    "test-access-key" "test-secret-key" true)
                 None)
              _ call_listObjects)
    as [Hbucket _].
  - reflexivity.
  - exact Hbucket.
Defined.
